(** * ContactDetailControl: a shallow embedding of
      [SelectContactDetailControl/index.ts] and the properties of its
      view/state cycle.

    The control is one TypeScript class driven by host and DOM events.  The
    embedding keeps its shape: the private fields become a record, every method
    becomes a computation in a small state-and-exception monad, and the
    pieces of the JavaScript runtime the methods lean on (string methods,
    plain objects used as dictionaries, the DOM nodes created by
    [renderLayout], the charting library) are modelled just far enough to run
    the methods.  An [await] splits a method in two: the part before it, and
    the part that an event of the loop resumes.

    Conventions.
    - A JavaScript string is a [string].  [toLowerCase], [toUpperCase] and
      [trim] are modelled on the ASCII range only ([isAscii]), where they
      act character by character as written below; on other text JavaScript
      uses the Unicode case mappings and white-space classes, which are not
      modelled.  A property that depends on what these three methods return
      is stated for ASCII text.  [escapeHtml] replaces five ASCII
      characters and keeps every other one, whatever it is.
    - Counters are [nat]: they count contacts or records and stay far below
      the 2^53 bound where JavaScript numbers stop being exact.
    - The DOM nodes that [renderLayout] writes into the container are always
      found again by [querySelector], so the [if (!node) return] guards that
      follow those lookups are not branches of the model.  [chartContext] is
      different: it is a nullable field of the class, filled from
      [canvas.getContext], and is modelled as such.
    - Two calls can throw: the rejected request awaited by [loadContacts],
      and [chart.destroy()].  The [Chart] constructor is taken to succeed;
      the control only ever hands it one of the chart types of its selector,
      after tearing the previous instance down.  This is exact when that
      [destroy] returns, and when it throws after it has released the canvas
      (a failing [afterDestroy] hook); a [destroy] that throws before
      releasing the canvas would make the constructor throw as well, and
      that path is outside the model.
    - The fields that the Web API returns for the selected columns are text,
      [null] or absent. *)

From Stdlib Require Import String Ascii List Arith NArith Lia Bool PeanoNat.
From Stdlib Require Import Permutation DecimalString.
Import ListNotations.
Open Scope list_scope.
Open Scope string_scope.
Open Scope nat_scope.

(** ** JavaScript strings *)

Module JSString.

Definition nl : string := String "010"%char EmptyString.
Definition dquote : ascii := "034"%char.
Definition squote : ascii := "039"%char.

Definition isEmpty (s : string) : bool :=
  match s with EmptyString => true | String _ _ => false end.

(** The text on which the three methods below are modelled exactly: every
    character is in the ASCII range. *)
Definition isAsciiChar (c : ascii) : bool := nat_of_ascii c <? 128.

Fixpoint isAscii (s : string) : bool :=
  match s with
  | EmptyString => true
  | String c s' => isAsciiChar c && isAscii s'
  end.

(** [String.prototype.toLowerCase] and [toUpperCase] on ASCII text: the
    letters [A] to [Z] (resp. [a] to [z]) change case, and nothing else
    does.  Outside ASCII the real methods also map accented and other
    cased letters; the model leaves them alone. *)
Definition lowerChar (c : ascii) : ascii :=
  let n := nat_of_ascii c in
  if (65 <=? n) && (n <=? 90) then ascii_of_nat (n + 32) else c.

Definition upperChar (c : ascii) : ascii :=
  let n := nat_of_ascii c in
  if (97 <=? n) && (n <=? 122) then ascii_of_nat (n - 32) else c.

Fixpoint toLowerCase (s : string) : string :=
  match s with
  | EmptyString => EmptyString
  | String c s' => String (lowerChar c) (toLowerCase s')
  end.

Fixpoint toUpperCase (s : string) : string :=
  match s with
  | EmptyString => EmptyString
  | String c s' => String (upperChar c) (toUpperCase s')
  end.

(** White space and line terminators of the ASCII range: TAB, LF, VT, FF,
    CR and SPACE.  The real [trim] also strips the no-break space, the
    byte order mark and the other Unicode space separators; the model does
    not. *)
Definition isWhiteSpace (c : ascii) : bool :=
  let n := nat_of_ascii c in
  ((9 <=? n) && (n <=? 13)) || (n =? 32).

Fixpoint trimStart (s : string) : string :=
  match s with
  | EmptyString => EmptyString
  | String c s' => if isWhiteSpace c then trimStart s' else s
  end.

Fixpoint trimEnd (s : string) : string :=
  match s with
  | EmptyString => EmptyString
  | String c s' =>
      let t := trimEnd s' in
      if isWhiteSpace c && isEmpty t then EmptyString else String c t
  end.

(** [String.prototype.trim] on ASCII text. *)
Definition trim (s : string) : string := trimEnd (trimStart s).

(** [s.includes(t)]: [t] occurs in [s] as a contiguous substring. *)
Fixpoint includes (s t : string) : bool :=
  prefix t s ||
  match s with
  | EmptyString => false
  | String _ s' => includes s' t
  end.

(** [s.charAt(0)] and [s.slice(1)]. *)
Definition charAt0 (s : string) : string :=
  match s with
  | EmptyString => EmptyString
  | String c _ => String c EmptyString
  end.

Definition slice1 (s : string) : string :=
  match s with
  | EmptyString => EmptyString
  | String _ s' => s'
  end.

(** [s.replace(/c/g, r)] for a one-character pattern [c]. *)
Fixpoint replaceAll (c : ascii) (r : string) (s : string) : string :=
  match s with
  | EmptyString => EmptyString
  | String x s' =>
      if Ascii.eqb x c then r ++ replaceAll c r s'
      else String x (replaceAll c r s')
  end.

(** Decimal rendering of a counter, as template literals print it. *)
Definition ofNat (n : nat) : string :=
  NilZero.string_of_uint (Nat.to_uint n).

End JSString.
Import JSString.

(** ** [escapeHtml] *)

(** The method, as written: five global replacements applied in sequence,
    the ampersand first. *)
Definition escapeHtml (value : string) : string :=
  replaceAll squote "&#039;"
    (replaceAll dquote "&quot;"
      (replaceAll ">" "&gt;"
        (replaceAll "<" "&lt;"
          (replaceAll "&" "&amp;" value)))).

(** What the specification asks for: every special character of the input is
    replaced by its entity, everything else is kept, in one pass. *)
Definition entityOf (c : ascii) : string :=
  if Ascii.eqb c "&" then "&amp;"
  else if Ascii.eqb c "<" then "&lt;"
  else if Ascii.eqb c ">" then "&gt;"
  else if Ascii.eqb c dquote then "&quot;"
  else if Ascii.eqb c squote then "&#039;"
  else String c EmptyString.

Fixpoint escapeEachChar (s : string) : string :=
  match s with
  | EmptyString => EmptyString
  | String c s' => entityOf c ++ escapeEachChar s'
  end.

(** ** Plain objects used as dictionaries

    [const grouped: Record<string, number> = {}] and [entityCounts] are
    ordinary objects: their own properties are kept in creation order, a
    lookup that finds no own property continues on [Object.prototype], and an
    assignment to [__proto__] runs the inherited setter, which ignores
    primitive values.  The values stored by the control are all primitives. *)

Module JSObject.

Definition t (V : Type) : Type := list (string * V).

Definition empty {V : Type} : t V := [].

(** The members every plain object inherits. *)
Definition objectPrototypeNames : list string :=
  [ "constructor"; "__defineGetter__"; "__defineSetter__"; "hasOwnProperty";
    "__lookupGetter__"; "__lookupSetter__"; "isPrototypeOf";
    "propertyIsEnumerable"; "toString"; "valueOf"; "__proto__";
    "toLocaleString" ].

Definition inherited (k : string) : bool :=
  existsb (String.eqb k) objectPrototypeNames.

(** The result of [o[k]]. *)
Inductive Lookup (V : Type) : Type :=
| Own (v : V)
| Inherited (member : string)
| Undefined.
Arguments Own {V} v.
Arguments Inherited {V} member.
Arguments Undefined {V}.

Fixpoint getOwn {V : Type} (o : t V) (k : string) : option V :=
  match o with
  | [] => None
  | (k', v) :: o' => if String.eqb k' k then Some v else getOwn o' k
  end.

Definition get {V : Type} (o : t V) (k : string) : Lookup V :=
  match getOwn o k with
  | Some v => Own v
  | None => if inherited k then Inherited k else Undefined
  end.

Fixpoint setOwn {V : Type} (o : t V) (k : string) (v : V) : t V :=
  match o with
  | [] => [(k, v)]
  | (k', v') :: o' =>
      if String.eqb k' k then (k', v) :: o' else (k', v') :: setOwn o' k v
  end.

(** [o[k] = v] for a primitive [v]. *)
Definition set {V : Type} (o : t V) (k : string) (v : V) : t V :=
  if String.eqb k "__proto__" then o else setOwn o k v.

(** Property order of [Object.keys], [Object.values] and [Object.entries]:
    array-index keys first, by ascending value, then the other keys in
    creation order. *)
Definition isDigit (c : ascii) : bool :=
  let n := nat_of_ascii c in (48 <=? n) && (n <=? 57).

Fixpoint allDigits (s : string) : bool :=
  match s with
  | EmptyString => true
  | String c s' => isDigit c && allDigits s'
  end.

Fixpoint digitsValue (acc : N) (s : string) : N :=
  match s with
  | EmptyString => acc
  | String c s' => digitsValue (acc * 10 + (N_of_ascii c - 48))%N s'
  end.

Definition arrayIndex (k : string) : option N :=
  match k with
  | EmptyString => None
  | String c rest =>
      if allDigits k && (negb (Ascii.eqb c "0") || isEmpty rest) then
        let v := digitsValue 0%N k in
        if (v <? 4294967295)%N then Some v else None
      else None
  end.

Fixpoint insertByIndex {V : Type} (e : N * (string * V))
  (l : list (N * (string * V))) : list (N * (string * V)) :=
  match l with
  | [] => [e]
  | e' :: l' =>
      if (fst e <=? fst e')%N then e :: l else e' :: insertByIndex e l'
  end.

Definition sortByIndex {V : Type} (l : list (N * (string * V)))
  : list (N * (string * V)) :=
  fold_right insertByIndex [] l.

Fixpoint indexed {V : Type} (o : t V) : list (N * (string * V)) :=
  match o with
  | [] => []
  | kv :: o' =>
      match arrayIndex (fst kv) with
      | Some i => (i, kv) :: indexed o'
      | None => indexed o'
      end
  end.

Definition named {V : Type} (o : t V) : t V :=
  filter (fun kv => match arrayIndex (fst kv) with
                    | Some _ => false
                    | None => true
                    end) o.

Definition entries {V : Type} (o : t V) : list (string * V) :=
  (map snd (sortByIndex (indexed o)) ++ named o)%list.

Definition keys {V : Type} (o : t V) : list string := map fst (entries o).

Definition values {V : Type} (o : t V) : list V := map snd (entries o).

End JSObject.

(** ** Data model *)

Module Contact.
Record t : Type := mk
  { id : string; name : string; email : string; city : string; job : string }.
End Contact.

Module RelatedRecord.
Record t : Type := mk
  { id : string; name : string; type : string; status : option string }.
End RelatedRecord.

(** A field of a raw Web API entity: absent, [null], or text. *)
Inductive RawValue : Type :=
| RawUndefined
| RawNull
| RawString (s : string).

Module Entity.
Record t : Type := mk
  { contactid : RawValue;
    fullname : RawValue;
    emailaddress1 : RawValue;
    address1_city : RawValue;
    jobtitle : RawValue }.
End Entity.

(** [String(v ?? d)]. *)
Definition stringOrDefault (v : RawValue) (d : string) : string :=
  match v with
  | RawUndefined | RawNull => d
  | RawString s => s
  end.

Inductive GroupBy : Type := City | Job.

(** A value held by [grouped].  The declared type promises numbers; the
    expression [(grouped[key] || 0) + 1] can also produce text: when the
    left operand is text the [+] concatenates, and when it is a function
    inherited from [Object.prototype] the text starts with that function's
    implementation-defined source rendering, kept symbolic in
    [NativeText]. *)
Inductive Count : Type :=
| Num (n : nat)
| Str (s : string)
| NativeText (member : string) (suffix : string).

(** [(grouped[key] || 0) + 1]. *)
Definition increment (l : JSObject.Lookup Count) : Count :=
  match l with
  | JSObject.Undefined => Num 1
  | JSObject.Own (Num n) => Num (n + 1)
  | JSObject.Own (Str s) => if isEmpty s then Num 1 else Str (s ++ "1")
  | JSObject.Own (NativeText m s) => NativeText m (s ++ "1")
  | JSObject.Inherited m =>
      if String.eqb m "__proto__" then Str "[object Object]1"
      else NativeText m "1"
  end.

Definition bump (grouped : JSObject.t Count) (key : string)
  : JSObject.t Count :=
  JSObject.set grouped key (increment (JSObject.get grouped key)).

(** The loop of [updateChart]. *)
Definition groupContacts (groupBy : GroupBy) (contacts : list Contact.t)
  : JSObject.t Count :=
  fold_left
    (fun grouped c =>
       let key := match groupBy with
                  | City => Contact.city c
                  | Job => Contact.job c
                  end in
       bump grouped key)
    contacts JSObject.empty.

(** The loop of [updateChartByEntity]. *)
Definition groupRecords (records : list RelatedRecord.t) : JSObject.t Count :=
  fold_left
    (fun grouped r =>
       let k := match RelatedRecord.status r with
                | Some st => st
                | None => "Unknown"
                end in
       bump grouped k)
    records JSObject.empty.

(** ** [getColors] *)

Definition palette : list string :=
  [ "#2563eb"; "#10b981"; "#f59e0b"; "#ef4444";
    "#6366f1"; "#14b8a6"; "#fbbf24"; "#ec4899" ].

Definition getColors (count : nat) : list string :=
  map (fun i => nth (i mod length palette) palette EmptyString) (seq 0 count).

(** ** The chart, the DOM subtree and the control's state *)

Record ChartConfiguration : Type := mkConfig
  { cfgType : string;
    cfgLabels : list string;
    cfgLabel : string;
    cfgData : list Count;
    cfgBackgroundColor : list string }.

(** A [Chart] instance: what it draws and whether it was torn down. *)
Record Chart : Type := mkChart
  { config : ChartConfiguration; destroyed : bool }.

(** A [div.contact-card] appended by [renderContactList]; [onclick] is the
    contact captured by the click closure. *)
Record Card : Type := mkCard
  { dataId : string; cardText : string; onclick : Contact.t }.

Inductive ListContent : Type :=
| ListText (text : string)
| ListCards (cards : list Card).

(** Content of [#tabContent]: set through [textContent], through
    [innerHTML], or through [innerHTML] followed by an appended [ul]. *)
Inductive TabContent : Type :=
| Text (text : string)
| Markup (html : string)
| MarkupWithList (html : string) (items : list string).

Inductive LogEntry : Type :=
| ConsoleWarn (message : string) (detail : option string)
| ConsoleError (message : string) (detail : string).

(** A [loadRelatedData] call suspended at its [await]. *)
Definition Suspended : Type := (list RelatedRecord.t * string)%type.

Record State : Type := mkState
  { (* fields of the class *)
    chart : option Chart;
    chartType : string;
    chartContext : bool;
    selectedContactId : option string;
    contacts : list Contact.t;
    entityCounts : JSObject.t nat;
    (* the subtree of the container *)
    contactList : ListContent;
    tabContent : TabContent;
    activeTab : option string;
    byCityActive : bool;
    byJobActive : bool;
    entityCountsList : list string;
    (* the runtime around the control *)
    console : list LogEntry;
    webApiCalls : list (string * string);
    awaitingContacts : bool;
    timers : list Suspended;
    randomCalls : nat }.

Definition set_chart v s := mkState v (chartType s) (chartContext s) (selectedContactId s) (contacts s) (entityCounts s) (contactList s) (tabContent s) (activeTab s) (byCityActive s) (byJobActive s) (entityCountsList s) (console s) (webApiCalls s) (awaitingContacts s) (timers s) (randomCalls s).
Definition set_chartType v s := mkState (chart s) v (chartContext s) (selectedContactId s) (contacts s) (entityCounts s) (contactList s) (tabContent s) (activeTab s) (byCityActive s) (byJobActive s) (entityCountsList s) (console s) (webApiCalls s) (awaitingContacts s) (timers s) (randomCalls s).
Definition set_chartContext v s := mkState (chart s) (chartType s) v (selectedContactId s) (contacts s) (entityCounts s) (contactList s) (tabContent s) (activeTab s) (byCityActive s) (byJobActive s) (entityCountsList s) (console s) (webApiCalls s) (awaitingContacts s) (timers s) (randomCalls s).
Definition set_selectedContactId v s := mkState (chart s) (chartType s) (chartContext s) v (contacts s) (entityCounts s) (contactList s) (tabContent s) (activeTab s) (byCityActive s) (byJobActive s) (entityCountsList s) (console s) (webApiCalls s) (awaitingContacts s) (timers s) (randomCalls s).
Definition set_contacts v s := mkState (chart s) (chartType s) (chartContext s) (selectedContactId s) v (entityCounts s) (contactList s) (tabContent s) (activeTab s) (byCityActive s) (byJobActive s) (entityCountsList s) (console s) (webApiCalls s) (awaitingContacts s) (timers s) (randomCalls s).
Definition set_entityCounts v s := mkState (chart s) (chartType s) (chartContext s) (selectedContactId s) (contacts s) v (contactList s) (tabContent s) (activeTab s) (byCityActive s) (byJobActive s) (entityCountsList s) (console s) (webApiCalls s) (awaitingContacts s) (timers s) (randomCalls s).
Definition set_contactList v s := mkState (chart s) (chartType s) (chartContext s) (selectedContactId s) (contacts s) (entityCounts s) v (tabContent s) (activeTab s) (byCityActive s) (byJobActive s) (entityCountsList s) (console s) (webApiCalls s) (awaitingContacts s) (timers s) (randomCalls s).
Definition set_tabContent v s := mkState (chart s) (chartType s) (chartContext s) (selectedContactId s) (contacts s) (entityCounts s) (contactList s) v (activeTab s) (byCityActive s) (byJobActive s) (entityCountsList s) (console s) (webApiCalls s) (awaitingContacts s) (timers s) (randomCalls s).
Definition set_activeTab v s := mkState (chart s) (chartType s) (chartContext s) (selectedContactId s) (contacts s) (entityCounts s) (contactList s) (tabContent s) v (byCityActive s) (byJobActive s) (entityCountsList s) (console s) (webApiCalls s) (awaitingContacts s) (timers s) (randomCalls s).
Definition set_byCityActive v s := mkState (chart s) (chartType s) (chartContext s) (selectedContactId s) (contacts s) (entityCounts s) (contactList s) (tabContent s) (activeTab s) v (byJobActive s) (entityCountsList s) (console s) (webApiCalls s) (awaitingContacts s) (timers s) (randomCalls s).
Definition set_byJobActive v s := mkState (chart s) (chartType s) (chartContext s) (selectedContactId s) (contacts s) (entityCounts s) (contactList s) (tabContent s) (activeTab s) (byCityActive s) v (entityCountsList s) (console s) (webApiCalls s) (awaitingContacts s) (timers s) (randomCalls s).
Definition set_entityCountsList v s := mkState (chart s) (chartType s) (chartContext s) (selectedContactId s) (contacts s) (entityCounts s) (contactList s) (tabContent s) (activeTab s) (byCityActive s) (byJobActive s) v (console s) (webApiCalls s) (awaitingContacts s) (timers s) (randomCalls s).
Definition set_console v s := mkState (chart s) (chartType s) (chartContext s) (selectedContactId s) (contacts s) (entityCounts s) (contactList s) (tabContent s) (activeTab s) (byCityActive s) (byJobActive s) (entityCountsList s) v (webApiCalls s) (awaitingContacts s) (timers s) (randomCalls s).
Definition set_webApiCalls v s := mkState (chart s) (chartType s) (chartContext s) (selectedContactId s) (contacts s) (entityCounts s) (contactList s) (tabContent s) (activeTab s) (byCityActive s) (byJobActive s) (entityCountsList s) (console s) v (awaitingContacts s) (timers s) (randomCalls s).
Definition set_awaitingContacts v s := mkState (chart s) (chartType s) (chartContext s) (selectedContactId s) (contacts s) (entityCounts s) (contactList s) (tabContent s) (activeTab s) (byCityActive s) (byJobActive s) (entityCountsList s) (console s) (webApiCalls s) v (timers s) (randomCalls s).
Definition set_timers v s := mkState (chart s) (chartType s) (chartContext s) (selectedContactId s) (contacts s) (entityCounts s) (contactList s) (tabContent s) (activeTab s) (byCityActive s) (byJobActive s) (entityCountsList s) (console s) (webApiCalls s) (awaitingContacts s) v (randomCalls s).
Definition set_randomCalls v s := mkState (chart s) (chartType s) (chartContext s) (selectedContactId s) (contacts s) (entityCounts s) (contactList s) (tabContent s) (activeTab s) (byCityActive s) (byJobActive s) (entityCountsList s) (console s) (webApiCalls s) (awaitingContacts s) (timers s) v.

(** ** A monad for methods: state that survives a [throw] *)

Inductive Outcome (A : Type) : Type :=
| Returned (a : A) (s : State)
| Thrown (error : string) (s : State).
Arguments Returned {A} a s.
Arguments Thrown {A} error s.

Definition M (A : Type) : Type := State -> Outcome A.

Definition ret {A : Type} (a : A) : M A := fun s => Returned a s.

Definition bind {A B : Type} (m : M A) (k : A -> M B) : M B :=
  fun s =>
    match m s with
    | Returned a s' => k a s'
    | Thrown e s' => Thrown e s'
    end.

Definition throw {A : Type} (error : string) : M A := fun s => Thrown error s.

(** [try { body } catch (e) { handler(e) }]. *)
Definition tryCatch {A : Type} (body : M A) (handler : string -> M A) : M A :=
  fun s =>
    match body s with
    | Returned a s' => Returned a s'
    | Thrown e s' => handler e s'
    end.

Definition read {A : Type} (f : State -> A) : M A := fun s => Returned (f s) s.

Definition update (f : State -> State) : M unit := fun s => Returned tt (f s).

Definition when (b : bool) (m : M unit) : M unit := if b then m else ret tt.

Declare Scope method_scope.
Delimit Scope method_scope with method.
Notation "x <- m ;; k" := (bind m (fun x => k))
  (at level 61, m at next level, right associativity) : method_scope.
Notation "m ;; k" := (bind m (fun _ => k))
  (at level 61, right associativity) : method_scope.
Open Scope method_scope.

(** The state a method leaves behind, however it ends. *)
Definition finalState {A : Type} (o : Outcome A) : State :=
  match o with
  | Returned _ s => s
  | Thrown _ s => s
  end.

Definition consoleWarn (message : string) (detail : option string) : M unit :=
  update (fun s => set_console (console s ++ [ConsoleWarn message detail])%list s).

Definition consoleError (message : string) (detail : string) : M unit :=
  update (fun s => set_console (console s ++ [ConsoleError message detail])%list s).

(** ** The methods of [ContactDetailControl] *)

Inductive FetchResult : Type :=
| Resolved (entities : list Entity.t)
| Rejected (reason : string).

(** What reaches the control after [init]. *)
Inductive Event : Type :=
| ChartTypeChange (value : string)
| ByCityClick
| ByJobClick
| SearchInput (value : string)
| TabClick (dataTab : option string)
| CardClick (index : nat)
| ContactsSettled (result : FetchResult)
| DelayElapsed
| UpdateView
| Destroy.

Definition tabNames : list string :=
  [ "contact"; "opportunities"; "activities"; "orders";
    "quotes"; "products"; "accounts"; "leads" ].

(** [container.querySelector(`[data-tab="${tabName}"]`)], for the tab names
    that the callers of [switchTab] pass: the [data-tab] value of a button
    of the layout, or the literal [contact]. *)
Definition tabButton (tabName : string) : option string :=
  if existsb (String.eqb tabName) tabNames then Some tabName else None.

(** [!this.selectedContactId]. *)
Definition noSelection (sel : option string) : bool :=
  match sel with
  | None => true
  | Some v => isEmpty v
  end.

(** [c.id === this.selectedContactId]. *)
Definition isSelected (sel : option string) (c : Contact.t) : bool :=
  match sel with
  | None => false
  | Some v => String.eqb (Contact.id c) v
  end.

Definition isSome {A : Type} (o : option A) : bool :=
  match o with Some _ => true | None => false end.

Definition contactQuery : string :=
  "?$select=fullname,emailaddress1,contactid,jobtitle,address1_city".

(** The mapping step of [loadContacts]. *)
Definition toContact (c : Entity.t) : Contact.t :=
  Contact.mk
    (stringOrDefault (Entity.contactid c) EmptyString)
    (stringOrDefault (Entity.fullname c) "Unnamed")
    (stringOrDefault (Entity.emailaddress1 c) "N/A")
    (stringOrDefault (Entity.address1_city c) "Unknown")
    (stringOrDefault (Entity.jobtitle c) "N/A").

(** [ct => ct.id] used as a filter: a non-empty string is truthy. *)
Definition hasId (ct : Contact.t) : bool := negb (isEmpty (Contact.id ct)).

Definition cardOf (contact : Contact.t) : Card :=
  mkCard (Contact.id contact)
    (Contact.name contact ++ " - " ++ Contact.email contact ++ " - "
       ++ Contact.city contact)
    contact.

(** The template literal of [showContactDetails], with the escaping function
    it applies to each field left open. *)
Definition detailsTemplate (esc : string -> string) (contact : Contact.t)
  : string :=
  nl ++ "      <h4>" ++ esc (Contact.name contact) ++ "</h4>" ++
  nl ++ "      <p><strong>Email:</strong> "
     ++ esc (Contact.email contact) ++ "</p>" ++
  nl ++ "      <p><strong>City:</strong> "
     ++ esc (Contact.city contact) ++ "</p>" ++
  nl ++ "      <p><strong>Job Title:</strong> "
     ++ esc (Contact.job contact) ++ "</p>" ++
  nl ++ "    ".

Definition detailsHtml (contact : Contact.t) : string :=
  detailsTemplate escapeHtml contact.

Definition capitalize (entityName : string) : string :=
  toUpperCase (charAt0 entityName) ++ slice1 entityName.

(** The element that [Array.from] builds at index [i] in [loadRelatedData]. *)
Definition mockRecord (entityName : string) (i : nat) : RelatedRecord.t :=
  RelatedRecord.mk
    (entityName ++ "-" ++ ofNat (i + 1))
    (capitalize entityName ++ " Record " ++ ofNat (i + 1))
    entityName
    (Some (if i mod 2 =? 0 then "Active" else "Closed")).

Definition recordLine (r : RelatedRecord.t) : string :=
  RelatedRecord.name r ++ " ["
    ++ match RelatedRecord.status r with Some st => st | None => "N/A" end
    ++ "]".

Definition countLine (entry : string * nat) : string :=
  fst entry ++ ": " ++ ofNat (snd entry).

Definition relatedEntities : list string :=
  [ "opportunities"; "activities"; "orders"; "quotes";
    "products"; "accounts"; "leads" ].

(** The object right after construction: the field initialisers of the
    class, an empty container, nothing logged or requested. *)
Definition constructed : State :=
  mkState None "bar" false None [] JSObject.empty
          (ListCards []) (Text EmptyString) None false false []
          [] [] false [] 0.

(** ** Vocabulary of the specification *)

(** Two characters that are the same letter in either case, or the same
    character. *)
Definition isUpperLetter (c : ascii) : bool :=
  (65 <=? nat_of_ascii c) && (nat_of_ascii c <=? 90).

Definition sameLetter (x y : ascii) : Prop :=
  x = y \/
  (isUpperLetter x = true /\ nat_of_ascii y = nat_of_ascii x + 32) \/
  (isUpperLetter y = true /\ nat_of_ascii x = nat_of_ascii y + 32).

(** Two strings that differ at most in the case of their letters. *)
Inductive equalIgnoringCase : string -> string -> Prop :=
| eqCase_empty : equalIgnoringCase EmptyString EmptyString
| eqCase_char (x y : ascii) (a b : string) :
    sameLetter x y -> equalIgnoringCase a b ->
    equalIgnoringCase (String x a) (String y b).

(** [name] contains [term] case-insensitively: some contiguous part of
    [name] equals [term] up to letter case. *)
Definition containsIgnoringCase (name term : string) : Prop :=
  exists before part after,
    name = before ++ part ++ after /\ equalIgnoringCase part term.

(** The contacts shown in [#contactList], top to bottom. *)
Definition renderedContacts (l : ListContent) : list Contact.t :=
  match l with
  | ListText _ => []
  | ListCards cards => map onclick cards
  end.

(** The sum of the values of a grouping, when they are all numbers. *)
Fixpoint sumCounts (l : list Count) : option nat :=
  match l with
  | [] => Some 0
  | Num n :: l' =>
      match sumCounts l' with
      | Some m => Some (n + m)
      | None => None
      end
  | _ :: _ => None
  end.

Definition groupKey (groupBy : GroupBy) (c : Contact.t) : string :=
  match groupBy with
  | City => Contact.city c
  | Job => Contact.job c
  end.

(** What the specification says of a grouping [grouped] of [contacts]: its
    values add up to the number of contacts and its keys are the distinct
    values of the grouping field. *)
Definition groupingAsSpecified (groupBy : GroupBy) (contacts : list Contact.t)
  (grouped : JSObject.t Count) : Prop :=
  sumCounts (JSObject.values grouped) = Some (length contacts) /\
  NoDup (JSObject.keys grouped) /\
  forall k, In k (JSObject.keys grouped) <->
            In k (map (groupKey groupBy) contacts).

(** The state of the grouping loop after the keys [ks] have been counted:
    the invariant behind [groupingAsSpecified]. *)
Definition counted (o : JSObject.t Count) (ks : list string) : Prop :=
  NoDup (map fst o) /\
  (forall k, In k (map fst o) <-> In k ks) /\
  sumCounts (map snd o) = Some (length ks).

(** The fields that entering the contact tab does not touch. *)
Definition sameSelectionAndData (s s' : State) : Prop :=
  selectedContactId s' = selectedContactId s /\
  chartContext s' = chartContext s /\
  chartType s' = chartType s /\
  contacts s' = contacts s /\
  byCityActive s' = byCityActive s /\
  byJobActive s' = byJobActive s.

(** A method that leaves an observation [f] of the state as it found it,
    whether it returns or throws. *)
Definition preserves {X A : Type} (f : State -> X) (m : M A) : Prop :=
  forall s, f (finalState (m s)) = f s.

(** A method out of which no exception escapes. *)
Definition neverThrows {A : Type} (m : M A) : Prop :=
  forall s, exists a s', m s = Returned a s'.

(** The chart that [renderChart] leaves on the canvas. *)
Definition chartOf (ty : string) (grouped : JSObject.t Count) (label : string)
  : Chart :=
  mkChart
    (mkConfig ty (JSObject.keys grouped) label (JSObject.values grouped)
              (getColors (length (JSObject.keys grouped))))
    false.

(** The chart that a redraw by [groupBy] leaves on the canvas. *)
Definition contactsChart (ty : string) (groupBy : GroupBy)
  (contacts : list Contact.t) : Chart :=
  chartOf ty (groupContacts groupBy contacts) "Contacts".

(** The chart drawn for the related records of a tab. *)
Definition recordsChart (ty : string) (records : list RelatedRecord.t)
  (entityName : string) : Chart :=
  chartOf ty (groupRecords records) entityName.

(** What [renderRelatedRecords] puts into the detail panel. *)
Definition relatedMarkup (records : list RelatedRecord.t)
  (entityName : string) : TabContent :=
  MarkupWithList
    ("<p>Total " ++ escapeHtml entityName ++ ": "
       ++ ofNat (length records) ++ "</p>")
    (map recordLine records).

(** Decoding of the five entities, as the HTML parser does when it reads
    [innerHTML] back into text; [skip] counts the characters of an entity
    still to be passed over. *)
Fixpoint unescapeFrom (skip : nat) (s : string) : string :=
  match s with
  | EmptyString => EmptyString
  | String c rest =>
      match skip with
      | S k => unescapeFrom k rest
      | 0 =>
          if Ascii.eqb c "&" then
            if prefix "amp;" rest then String "&" (unescapeFrom 4 rest)
            else if prefix "lt;" rest then String "<" (unescapeFrom 3 rest)
            else if prefix "gt;" rest then String ">" (unescapeFrom 3 rest)
            else if prefix "quot;" rest then String dquote (unescapeFrom 5 rest)
            else if prefix "#039;" rest then String squote (unescapeFrom 5 rest)
            else String c (unescapeFrom 0 rest)
          else String c (unescapeFrom 0 rest)
      end
  end.

Definition unescapeHtml (s : string) : string := unescapeFrom 0 s.

(** ** Vocabulary of the further properties *)

(** One of the five characters that [escapeHtml] replaces. *)
Definition isSpecial (c : ascii) : bool :=
  Ascii.eqb c "&" || Ascii.eqb c "<" || Ascii.eqb c ">"
  || Ascii.eqb c dquote || Ascii.eqb c squote.

(** [c] occurs in [s]. *)
Fixpoint occurs (c : ascii) (s : string) : bool :=
  match s with
  | EmptyString => false
  | String x s' => Ascii.eqb x c || occurs c s'
  end.

(** No character of [s] is special. *)
Fixpoint plainText (s : string) : bool :=
  match s with
  | EmptyString => true
  | String x s' => negb (isSpecial x) && plainText s'
  end.

(** The key under which [updateChartByEntity] counts a record. *)
Definition statusKey (r : RelatedRecord.t) : string :=
  match RelatedRecord.status r with
  | Some st => st
  | None => "Unknown"
  end.

(** The cards in [#contactList]. *)
Definition cardsOf (l : ListContent) : list Card :=
  match l with
  | ListText _ => []
  | ListCards cards => cards
  end.

(** Exactly one of the two grouping buttons carries the [active] class. *)
Definition oneToggleActive (s : State) : Prop :=
  byCityActive s = negb (byJobActive s).

(** What the selection, the list and the stored contacts have to do with
    one another: every stored contact has an id, every card shows a stored
    contact, a selected id is the id of a stored contact, and nothing is
    stored while the request for contacts is still out. *)
Definition wellFormed (s : State) : Prop :=
  (forall c, In c (contacts s) -> hasId c = true) /\
  (forall c, In c (renderedContacts (contactList s)) -> In c (contacts s)) /\
  (forall v, selectedContactId s = Some v ->
             In v (map Contact.id (contacts s))) /\
  (awaitingContacts s = true -> contacts s = []).

(** The part of the state that [wellFormed] speaks of. *)
Definition storedAndShown (s : State)
  : list Contact.t * ListContent * option string * bool :=
  (contacts s, contactList s, selectedContactId s, awaitingContacts s).

(** The console lines that tearing down the current chart adds. *)
Definition teardownWarnings (destroyError : ChartConfiguration -> option string)
  (message : string) (s : State) : list LogEntry :=
  match chart s with
  | None => []
  | Some ch =>
      match destroyError (config ch) with
      | Some e => [ConsoleWarn message (Some e)]
      | None => []
      end
  end.

(** The grouping of [k] mock records by status: they alternate, starting
    with [Active]. *)
Definition mockGrouping (k : nat) : JSObject.t Count :=
  match k with
  | 0 => []
  | 1 => [("Active", Num 1)]
  | _ => [("Active", Num ((k + 1) / 2)); ("Closed", Num (k / 2))]
  end.

(** ** Sample data *)

Definition alice : Contact.t :=
  Contact.mk "c-1" "Alice <A&B>" "alice@example.com" "NY" "Engineer".

Definition al : Contact.t :=
  Contact.mk "c-2" "Al" "al@example.com" "LA" "Manager".

(** A contact whose city and job title happen to be names of
    [Object.prototype] members. *)
Definition eve : Contact.t :=
  Contact.mk "c-3" "Eve" "eve@example.com" "__proto__" "constructor".

Definition sampleEntities : list Entity.t :=
  [ Entity.mk (RawString "c-1") (RawString "Alice <A&B>")
      (RawString "alice@example.com") (RawString "NY") (RawString "Engineer");
    Entity.mk (RawString "c-2") (RawString "Al")
      (RawString "al@example.com") (RawString "LA") (RawString "Manager") ].

Definition zeroCounts : JSObject.t nat :=
  map (fun e => (e, 0)) relatedEntities.

(** The control after [init] and a resolved request for [alice] and [al],
    with and without a canvas context. *)
Definition loaded : State :=
  mkState (Some (contactsChart "bar" City [alice; al])) "bar" true None
          [alice; al] zeroCounts
          (ListCards [cardOf alice; cardOf al])
          (Text "Select a contact to view details.") (Some "contact")
          true false (map countLine zeroCounts)
          [] [("contact", contactQuery)] false [] 0.

Definition loadedWithoutCanvas : State :=
  mkState None "bar" false None
          [alice; al] zeroCounts
          (ListCards [cardOf alice; cardOf al])
          (Text "Select a contact to view details.") (Some "contact")
          true false (map countLine zeroCounts)
          [ConsoleWarn
             "ContactDetailControl: canvas #contactChart not found during layout render."
             None]
          [("contact", contactQuery)] false [] 0.

(** [loaded] after [alice] was selected and the Orders tab was opened: the
    related records wait for their timer. *)
Definition ordersPending : State :=
  mkState (Some (contactsChart "bar" City [alice; al])) "bar" true
          (Some "c-1") [alice; al] zeroCounts
          (ListCards [cardOf alice; cardOf al])
          (Text "Loading related records...") (Some "orders")
          true false (map countLine zeroCounts)
          [] [("contact", contactQuery)] false
          [(map (mockRecord "orders") (seq 0 3), "orders")] 1.

(** [loaded] after a click on the card of [alice]. *)
Definition aliceSelected : State :=
  mkState (Some (contactsChart "bar" City [alice; al])) "bar" true
          (Some "c-1") [alice; al] zeroCounts
          (ListCards [cardOf alice; cardOf al])
          (Markup (detailsHtml alice)) (Some "contact")
          true false (map countLine zeroCounts)
          [] [("contact", contactQuery)] false [] 0.

(** [aliceSelected] after clicks on the Orders and the Leads tab, both
    loads still waiting. *)
Definition twoPending : State :=
  mkState (Some (contactsChart "bar" City [alice; al])) "bar" true
          (Some "c-1") [alice; al] zeroCounts
          (ListCards [cardOf alice; cardOf al])
          (Text "Loading related records...") (Some "leads")
          true false (map countLine zeroCounts)
          [] [("contact", contactQuery)] false
          [ (map (mockRecord "orders") (seq 0 3), "orders");
            (map (mockRecord "leads") (seq 0 3), "leads") ] 2.

(** Two related records, one of them without a status. *)
Definition sampleRecords : list RelatedRecord.t :=
  [ RelatedRecord.mk "quotes-1" "Quotes Record 1" "quotes" (Some "Active");
    RelatedRecord.mk "quotes-2" "Quotes Record 2" "quotes" None ].

(** A charting library whose [destroy] never throws, and a random source
    that always makes three records. *)
Definition quietDestroy (_ : ChartConfiguration) : option string := None.

Definition alwaysTwo (_ : nat) : nat := 2.

Section Control.

(** The collaborators the control does not own. *)

(** [chart.destroy()] of an instance drawn from this configuration: the
    error it throws, if it throws. *)
Variable destroyError : ChartConfiguration -> option string.

(** [Math.floor(Math.random() * 5)] at the n-th call. *)
Variable random5 : nat -> nat.

(** Whether [canvas.getContext("2d")] hands out a context. *)
Variable canvasContext : bool.

Definition chartDestroy : M unit :=
  fun s =>
    match chart s with
    | None => Returned tt s
    | Some ch =>
        match destroyError (config ch) with
        | Some e => Thrown e s
        | None => Returned tt (set_chart (Some (mkChart (config ch) true)) s)
        end
    end.

(** [renderChart]: the teardown of the previous instance in its [try], then
    [new Chart], outside any [try].  The constructor is modelled as
    returning; see the conventions for the one path where the library's
    does not. *)
Definition renderChart (grouped : JSObject.t Count) (label : string)
  : M unit :=
  let labels := JSObject.keys grouped in
  let data := JSObject.values grouped in
  (ch <- read chart ;;
   when (isSome ch)
     (tryCatch chartDestroy
        (fun e => consoleWarn "Error destroying previous chart:" (Some e))) ;;
   ctx <- read chartContext ;;
   if negb ctx then ret tt
   else
     (ty <- read chartType ;;
      update (set_chart
                (Some (mkChart
                         (mkConfig ty labels label data
                                   (getColors (length labels)))
                         false))))).

Definition updateChart (groupBy : GroupBy) : M unit :=
  ctx <- read chartContext ;;
  if negb ctx then ret tt
  else (cs <- read contacts ;;
        renderChart (groupContacts groupBy cs) "Contacts").

Definition updateChartByEntity (records : list RelatedRecord.t)
  (entityName : string) : M unit :=
  ctx <- read chartContext ;;
  if negb ctx then ret tt
  else renderChart (groupRecords records) entityName.

Definition renderEntityCounts : M unit :=
  counts <- read entityCounts ;;
  update (set_entityCountsList (map countLine (JSObject.entries counts))).

Definition calculateEntityCounts : M unit :=
  update (fun s =>
            set_entityCounts
              (fold_left (fun counts e => JSObject.set counts e 0)
                         relatedEntities (entityCounts s)) s) ;;
  renderEntityCounts.

Definition renderContactList (cs : list Contact.t) : M unit :=
  match cs with
  | [] => update (set_contactList (ListText "No contacts found."))
  | _ :: _ => update (set_contactList (ListCards (map cardOf cs)))
  end.

Definition showContactDetails (contact : Contact.t) : M unit :=
  update (set_tabContent (Markup (detailsHtml contact))) ;;
  updateChart City.

Definition renderRelatedRecords (records : list RelatedRecord.t)
  (entityName : string) : M unit :=
  update (set_tabContent (relatedMarkup records entityName)) ;;
  update (fun s =>
            set_entityCounts
              (JSObject.set (entityCounts s) entityName (length records)) s) ;;
  renderEntityCounts.

(** [loadRelatedData] up to its [await]: the records are made, the timer is
    armed, and the rest of the method waits in [timers]. *)
Definition loadRelatedData (entityName : string) : M unit :=
  update (set_tabContent (Text "Loading related records...")) ;;
  n <- read randomCalls ;;
  update (set_randomCalls (n + 1)) ;;
  let mockRelated := map (mockRecord entityName) (seq 0 (random5 n + 1)) in
  update (fun s => set_timers (timers s ++ [(mockRelated, entityName)])%list s).

(** [loadRelatedData] from its [await] on, inside the same [try]. *)
Definition loadRelatedDataResumed (task : Suspended) : M unit :=
  tryCatch
    (renderRelatedRecords (fst task) (snd task) ;;
     updateChartByEntity (fst task) (snd task))
    (fun err =>
       consoleError "Error loading related data:" err ;;
       update (set_tabContent (Text "Failed to load related records."))).

Definition switchTab (tabName : string) : M unit :=
  update (set_activeTab (tabButton tabName)) ;;
  sel <- read selectedContactId ;;
  if noSelection sel && negb (String.eqb tabName "contact") then
    update (set_tabContent (Text "Select a contact first."))
  else if String.eqb tabName "contact" then
    (cs <- read contacts ;;
     match find (isSelected sel) cs with
     | Some selectedContact => showContactDetails selectedContact
     | None => ret tt
     end)
  else loadRelatedData tabName.

Definition onContactSelect (contact : Contact.t) : M unit :=
  update (set_selectedContactId (Some (Contact.id contact))) ;;
  switchTab "contact" ;;
  showContactDetails contact.

(** [loadContacts] up to its [await]. *)
Definition loadContacts : M unit :=
  update (fun s =>
            set_webApiCalls (webApiCalls s ++ [("contact", contactQuery)])%list s) ;;
  update (set_awaitingContacts true).

(** [loadContacts] from its [await] on: the [try] body when the request
    resolved, the [catch] block when it rejected. *)
Definition loadContactsSettled (result : FetchResult) : M unit :=
  tryCatch
    (match result with
     | Rejected reason => throw reason
     | Resolved entities =>
         update (set_contacts (filter hasId (map toContact entities))) ;;
         cs <- read contacts ;;
         renderContactList cs ;;
         calculateEntityCounts ;;
         updateChart City
     end)
    (fun error =>
       consoleError "ContactDetailControl.loadContacts error:" error ;;
       update (set_tabContent
                 (Text "Failed to load contacts. Check console for details."))).

Definition renderLayout : M unit :=
  update (set_contactList (ListCards [])) ;;
  update (set_tabContent (Text "Select a contact to view details.")) ;;
  update (set_activeTab (Some "contact")) ;;
  update (set_byCityActive true) ;;
  update (set_byJobActive false) ;;
  update (set_entityCountsList []) ;;
  update (set_chartContext canvasContext) ;;
  when (negb canvasContext)
    (consoleWarn
       "ContactDetailControl: canvas #contactChart not found during layout render."
       None).

(** The listeners installed by [registerEventHandlers]. *)
Definition onChartTypeChange (value : string) : M unit :=
  update (set_chartType value) ;;
  byCity <- read byCityActive ;;
  updateChart (if byCity then City else Job).

Definition onByCityClick : M unit :=
  update (set_byCityActive true) ;;
  update (set_byJobActive false) ;;
  updateChart City.

Definition onByJobClick : M unit :=
  update (set_byJobActive true) ;;
  update (set_byCityActive false) ;;
  updateChart Job.

Definition matchesTerm (term : string) (c : Contact.t) : bool :=
  includes (toLowerCase (Contact.name c)) term.

Definition onSearchInput (value : string) : M unit :=
  let term := toLowerCase (trim value) in
  cs <- read contacts ;;
  renderContactList (filter (matchesTerm term) cs).

Definition onTabClick (dataTab : option string) : M unit :=
  let selectedTab :=
    match dataTab with
    | Some v => if isEmpty v then "contact" else v
    | None => "contact"
    end in
  switchTab selectedTab.

(** [registerEventHandlers] installs the listeners above; [step] below is
    their dispatch, so the method itself leaves the state alone. *)
Definition registerEventHandlers : M unit := ret tt.

Definition init : M unit :=
  renderLayout ;;
  registerEventHandlers ;;
  loadContacts.

Definition updateView : M unit := ret tt.

Definition getOutputs : M unit := ret tt.

Definition destroy : M unit :=
  ch <- read chart ;;
  when (isSome ch)
    (tryCatch chartDestroy
       (fun e => consoleWarn "Error destroying chart on destroy:" (Some e))).

(** One turn of the event loop. *)
Definition step (e : Event) : M unit :=
  match e with
  | ChartTypeChange value => onChartTypeChange value
  | ByCityClick => onByCityClick
  | ByJobClick => onByJobClick
  | SearchInput value => onSearchInput value
  | TabClick dataTab => onTabClick dataTab
  | CardClick index =>
      list <- read contactList ;;
      match list with
      | ListText _ => ret tt
      | ListCards cards =>
          match nth_error cards index with
          | Some card => onContactSelect (onclick card)
          | None => ret tt
          end
      end
  | ContactsSettled result =>
      waiting <- read awaitingContacts ;;
      if waiting then
        (update (set_awaitingContacts false) ;; loadContactsSettled result)
      else ret tt
  | DelayElapsed =>
      ts <- read timers ;;
      match ts with
      | [] => ret tt
      | task :: rest =>
          update (set_timers rest) ;; loadRelatedDataResumed task
      end
  | UpdateView => updateView
  | Destroy => destroy
  end.

Fixpoint run (events : list Event) (s : State) : Outcome unit :=
  match events with
  | [] => Returned tt s
  | e :: rest =>
      match step e s with
      | Returned _ s' => run rest s'
      | Thrown err s' => Thrown err s'
      end
  end.

(** ** The sentences of the specification that the code does not meet,
       as they are stated *)

(** The search handler shows exactly the contacts whose name contains the
    text of the search box, case-insensitively. *)
Definition searchShowsMatchesOf (value : string) (s : State) : Prop :=
  exists s',
    onSearchInput value s = Returned tt s' /\
    forall c, In c (renderedContacts (contactList s')) <->
              In c (contacts s) /\
              containsIgnoringCase (Contact.name c) value.

(** Once the control is destroyed, a related-data fetch that was pending
    neither throws nor writes to the container or the canvas. *)
Definition pendingWorkIsInert (s : State) : Prop :=
  forall s1,
    step Destroy s = Returned tt s1 ->
    exists s2,
      step DelayElapsed s1 = Returned tt s2 /\
      tabContent s2 = tabContent s1 /\
      entityCountsList s2 = entityCountsList s1 /\
      contactList s2 = contactList s1 /\
      chart s2 = chart s1.

(** [destroy] discards the stored contacts. *)
Definition contactsDiscardedOnDestroy (s : State) : Prop :=
  forall s', destroy s = Returned tt s' -> contacts s' = [].

(** Rendering the details of a contact leaves the by-city chart on the
    canvas. *)
Definition detailsRedrawByCity (contact : Contact.t) (s : State) : Prop :=
  exists s',
    showContactDetails contact s = Returned tt s' /\
    chart s' = Some (contactsChart (chartType s) City (contacts s)).

(** ** Facts about the string methods *)

Lemma append_assoc (a b c : string) : (a ++ b) ++ c = a ++ (b ++ c).
Proof. induction a as [|x a IH]; simpl; [reflexivity | now rewrite IH]. Qed.

Lemma replaceAll_append (c : ascii) (r a b : string) :
  replaceAll c r (a ++ b) = replaceAll c r a ++ replaceAll c r b.
Proof.
  induction a as [|x a IH]; simpl; [reflexivity|].
  destruct (Ascii.eqb x c); rewrite IH; simpl;
    [now rewrite append_assoc | reflexivity].
Qed.

Lemma escapeHtml_append (a b : string) :
  escapeHtml (a ++ b) = escapeHtml a ++ escapeHtml b.
Proof. unfold escapeHtml. now rewrite !replaceAll_append. Qed.

Lemma escapeHtml_char (c : ascii) :
  escapeHtml (String c EmptyString) = entityOf c.
Proof.
  destruct c as [[] [] [] [] [] [] [] []]; reflexivity.
Qed.

(** The five passes amount to one pass that maps each character to its
    entity: no pass rewrites what an earlier pass produced. *)
Lemma escapeHtml_each (s : string) : escapeHtml s = escapeEachChar s.
Proof.
  induction s as [|c s IH]; [reflexivity|].
  change (String c s) with (String c EmptyString ++ s).
  rewrite escapeHtml_append, escapeHtml_char, IH. reflexivity.
Qed.

Lemma prefix_iff (t s : string) :
  prefix t s = true <-> exists rest, s = t ++ rest.
Proof.
  revert s. induction t as [|a t IH]; intros s.
  - destruct s; simpl; split; intros _; try reflexivity; eexists; reflexivity.
  - destruct s as [|b s]; simpl.
    + split; [discriminate | intros [rest H]; discriminate].
    + destruct (ascii_dec a b) as [->|Hab].
      * rewrite IH. split; intros [rest H]; exists rest.
        -- now rewrite H.
        -- now inversion H.
      * split; [discriminate|]. intros [rest H]. inversion H. congruence.
Qed.

Lemma includes_iff (s t : string) :
  includes s t = true <-> exists before after, s = before ++ t ++ after.
Proof.
  induction s as [|c s IH]; cbn [includes].
  - rewrite orb_false_r, prefix_iff. split.
    + intros [rest H]. exists EmptyString, rest. exact H.
    + intros [before [after H]]. destruct before; [|discriminate].
      exists after. exact H.
  - rewrite orb_true_iff, prefix_iff, IH. split.
    + intros [[rest H]|[before [after H]]].
      * exists EmptyString, rest. exact H.
      * exists (String c before), after. simpl. now rewrite H.
    + intros [before [after H]]. destruct before as [|x before].
      * left. exists after. exact H.
      * right. exists before, after. simpl in H. now inversion H.
Qed.

Lemma toLowerCase_append (a b : string) :
  toLowerCase (a ++ b) = toLowerCase a ++ toLowerCase b.
Proof. induction a as [|x a IH]; simpl; [reflexivity | now rewrite IH]. Qed.

Lemma toLowerCase_split (s a b : string) :
  toLowerCase s = a ++ b ->
  exists a' b', s = a' ++ b' /\ toLowerCase a' = a /\ toLowerCase b' = b.
Proof.
  revert s. induction a as [|x a IH]; intros s H; simpl in H.
  - exists EmptyString, s. auto.
  - destruct s as [|c s]; [discriminate|]. simpl in H. inversion H as [[Hc Hs]].
    destruct (IH s Hs) as [a' [b' [E [Ea Eb]]]].
    exists (String c a'), b'. simpl. subst. auto.
Qed.

Lemma nat_of_ascii_lowerChar (c : ascii) :
  nat_of_ascii (lowerChar c)
  = if isUpperLetter c then nat_of_ascii c + 32 else nat_of_ascii c.
Proof.
  unfold lowerChar, isUpperLetter.
  destruct ((65 <=? nat_of_ascii c) && (nat_of_ascii c <=? 90)) eqn:E;
    [|reflexivity].
  apply andb_true_iff in E. destruct E as [_ E]. apply Nat.leb_le in E.
  apply nat_ascii_embedding. lia.
Qed.

Lemma nat_of_ascii_inj (x y : ascii) :
  nat_of_ascii x = nat_of_ascii y -> x = y.
Proof.
  intros H. rewrite <- (ascii_nat_embedding x), <- (ascii_nat_embedding y).
  now rewrite H.
Qed.

(** Lower-casing identifies exactly the characters that are the same
    letter. *)
Lemma lowerChar_sameLetter (x y : ascii) :
  lowerChar x = lowerChar y <-> sameLetter x y.
Proof.
  unfold sameLetter. split.
  - intros H. apply (f_equal nat_of_ascii) in H.
    rewrite !nat_of_ascii_lowerChar in H.
    destruct (isUpperLetter x) eqn:Ex, (isUpperLetter y) eqn:Ey.
    + left. apply nat_of_ascii_inj. lia.
    + right. left. split; [reflexivity | lia].
    + right. right. split; [reflexivity | lia].
    + left. now apply nat_of_ascii_inj.
  - intros [->|[[Ex Hy]|[Ey Hx]]]; [reflexivity| |];
      apply nat_of_ascii_inj; rewrite !nat_of_ascii_lowerChar.
    + rewrite Ex. unfold isUpperLetter in *.
      apply andb_true_iff in Ex. destruct Ex as [Ex1 Ex2].
      apply Nat.leb_le in Ex1, Ex2.
      replace ((65 <=? nat_of_ascii y) && (nat_of_ascii y <=? 90)) with false;
        [lia|].
      symmetry. apply andb_false_iff. right. apply Nat.leb_gt. lia.
    + rewrite Ey. unfold isUpperLetter in *.
      apply andb_true_iff in Ey. destruct Ey as [Ey1 Ey2].
      apply Nat.leb_le in Ey1, Ey2.
      replace ((65 <=? nat_of_ascii x) && (nat_of_ascii x <=? 90)) with false;
        [lia|].
      symmetry. apply andb_false_iff. right. apply Nat.leb_gt. lia.
Qed.

Lemma toLowerCase_equalIgnoringCase (a b : string) :
  toLowerCase a = toLowerCase b <-> equalIgnoringCase a b.
Proof.
  split.
  - revert b. induction a as [|x a IH]; intros [|y b] H; simpl in H;
      try discriminate; [constructor|].
    inversion H. constructor; [now apply lowerChar_sameLetter | now apply IH].
  - induction 1 as [|x y a b Hxy _ IH]; [reflexivity|].
    simpl. apply lowerChar_sameLetter in Hxy. now rewrite Hxy, IH.
Qed.

(** The test of the search filter, read as the specification words it. *)
Lemma includes_ignoring_case (name term : string) :
  includes (toLowerCase name) (toLowerCase term) = true <->
  containsIgnoringCase name term.
Proof.
  rewrite includes_iff. unfold containsIgnoringCase. split.
  - intros [before [after H]].
    destruct (toLowerCase_split _ _ _ H) as [b [r [E [Eb Er]]]].
    destruct (toLowerCase_split _ _ _ Er) as [m [a [E' [Em Ea]]]].
    exists b, m, a. subst r.
    split; [exact E | now apply toLowerCase_equalIgnoringCase].
  - intros [b [m [a [E Em]]]].
    apply toLowerCase_equalIgnoringCase in Em.
    exists (toLowerCase b), (toLowerCase a).
    now rewrite E, !toLowerCase_append, Em.
Qed.

Lemma unescapeFrom_entity (c : ascii) (s : string) :
  unescapeFrom 0 (entityOf c ++ s) = String c (unescapeFrom 0 s).
Proof.
  destruct c as [[] [] [] [] [] [] [] []]; destruct s; reflexivity.
Qed.

(** Reading the escaped text back gives the original text. *)
Lemma unescapeHtml_escapeHtml (s : string) : unescapeHtml (escapeHtml s) = s.
Proof.
  rewrite escapeHtml_each. unfold unescapeHtml.
  induction s as [|c s IH]; [reflexivity|].
  simpl escapeEachChar. now rewrite unescapeFrom_entity, IH.
Qed.

(** ** Facts about plain objects and the grouping loop *)

Lemma getOwn_None {V : Type} (o : JSObject.t V) (k : string) :
  JSObject.getOwn o k = None <-> ~ In k (map fst o).
Proof.
  induction o as [|[k' v] o IH]; simpl.
  - tauto.
  - destruct (String.eqb_spec k' k) as [->|Hne].
    + split; [discriminate | intros H; exfalso; apply H; now left].
    + rewrite IH. tauto.
Qed.

Lemma setOwn_keys_present {V : Type} (o : JSObject.t V) (k : string) (v : V) :
  In k (map fst o) -> map fst (JSObject.setOwn o k v) = map fst o.
Proof.
  induction o as [|[k' v'] o IH]; simpl; [tauto|].
  destruct (String.eqb_spec k' k) as [->|Hne]; simpl; [reflexivity|].
  intros [H|H]; [contradiction | now rewrite IH].
Qed.

Lemma setOwn_keys_fresh {V : Type} (o : JSObject.t V) (k : string) (v : V) :
  ~ In k (map fst o) ->
  map fst (JSObject.setOwn o k v) = (map fst o ++ [k])%list.
Proof.
  induction o as [|[k' v'] o IH]; simpl; [reflexivity|].
  destruct (String.eqb_spec k' k) as [->|Hne]; simpl; [tauto|].
  intros H. rewrite IH; tauto.
Qed.

Lemma setOwn_values_fresh {V : Type} (o : JSObject.t V) (k : string) (v : V) :
  JSObject.getOwn o k = None ->
  map snd (JSObject.setOwn o k v) = (map snd o ++ [v])%list.
Proof.
  induction o as [|[k' v'] o IH]; simpl; [reflexivity|].
  destruct (String.eqb k' k); simpl; [discriminate|].
  intros H. now rewrite IH.
Qed.

Lemma sumCounts_snoc (l : list Count) (t : nat) :
  sumCounts l = Some t -> sumCounts (l ++ [Num 1])%list = Some (t + 1).
Proof.
  revert t. induction l as [|[n|s|m s] l IH]; simpl; intros t H;
    try discriminate.
  - inversion H. reflexivity.
  - destruct (sumCounts l) as [m|]; [|discriminate].
    rewrite (IH m eq_refl). inversion H. f_equal. lia.
Qed.

(** A grouping whose values add up holds numbers only, and counting one more
    for a key it already has adds one to the total. *)
Lemma sumCounts_own (o : JSObject.t Count) (k : string) (v : Count) (t : nat) :
  sumCounts (map snd o) = Some t ->
  JSObject.getOwn o k = Some v ->
  exists n, v = Num n /\
            sumCounts (map snd (JSObject.setOwn o k (Num (n + 1)))) = Some (t + 1).
Proof.
  revert t. induction o as [|[k' v'] o IH]; simpl; intros t Hsum Hget;
    [discriminate|].
  destruct v' as [n'| |]; try discriminate.
  destruct (sumCounts (map snd o)) as [m|] eqn:Hm; [|discriminate].
  inversion Hsum; subst t.
  destruct (String.eqb k' k).
  - inversion Hget; subst v. exists n'. split; [reflexivity|].
    simpl. rewrite Hm. f_equal. lia.
  - destruct (IH m eq_refl Hget) as [n [-> Hs]]. exists n.
    split; [reflexivity|]. simpl. rewrite Hs. f_equal. lia.
Qed.

Lemma inherited_proto (k : string) :
  JSObject.inherited k = false -> String.eqb k "__proto__" = false.
Proof.
  destruct (String.eqb_spec k "__proto__") as [->|]; [discriminate | reflexivity].
Qed.

Lemma counted_bump (o : JSObject.t Count) (ks : list string) (k : string) :
  JSObject.inherited k = false ->
  counted o ks -> counted (bump o k) (ks ++ [k])%list.
Proof.
  intros Hk (Hnd & Hkeys & Hsum).
  unfold counted, bump, JSObject.set, JSObject.get.
  rewrite (inherited_proto k Hk), Hk.
  rewrite length_app, Nat.add_comm. simpl length.
  destruct (JSObject.getOwn o k) as [v|] eqn:Hget.
  - assert (Hin : In k (map fst o)).
    { destruct (in_dec string_dec k (map fst o)) as [H|H]; [exact H|].
      apply getOwn_None in H. congruence. }
    destruct (sumCounts_own o k v _ Hsum Hget) as [n [-> Hs]].
    simpl increment. repeat split.
    + now rewrite setOwn_keys_present.
    + rewrite setOwn_keys_present by exact Hin. intros H.
      apply in_or_app. left. now apply Hkeys.
    + rewrite setOwn_keys_present by exact Hin. intros H.
      apply in_app_or in H. destruct H as [H|[<-|[]]];
        [now apply Hkeys | exact Hin].
    + rewrite Hs. f_equal. lia.
  - assert (Hnin : ~ In k (map fst o)) by now apply getOwn_None.
    simpl increment. repeat split.
    + rewrite setOwn_keys_fresh by exact Hnin.
      apply NoDup_app; [exact Hnd | repeat constructor; simpl; tauto |].
      intros x Hx [<-|[]]. contradiction.
    + rewrite setOwn_keys_fresh by exact Hnin. intros H.
      apply in_app_or in H. apply in_or_app.
      destruct H as [H|H]; [left; now apply Hkeys | now right].
    + rewrite setOwn_keys_fresh by exact Hnin. intros H.
      apply in_app_or in H. apply in_or_app.
      destruct H as [H|H]; [left; now apply Hkeys | now right].
    + rewrite setOwn_values_fresh by exact Hget.
      rewrite (sumCounts_snoc _ _ Hsum). f_equal. lia.
Qed.

Lemma counted_fold (groupBy : GroupBy) (cs : list Contact.t) :
  forall (o : JSObject.t Count) (ks : list string),
    (forall c, In c cs -> JSObject.inherited (groupKey groupBy c) = false) ->
    counted o ks ->
    counted
      (fold_left (fun grouped c => bump grouped (groupKey groupBy c)) cs o)
      (ks ++ map (groupKey groupBy) cs)%list.
Proof.
  induction cs as [|c cs IH]; intros o ks Hcs Hinv; simpl.
  - now rewrite app_nil_r.
  - change (groupKey groupBy c :: map (groupKey groupBy) cs)
      with ([groupKey groupBy c] ++ map (groupKey groupBy) cs)%list.
    rewrite app_assoc. apply IH.
    + intros c' H. apply Hcs. now right.
    + apply counted_bump; [apply Hcs; now left | exact Hinv].
Qed.

Lemma insertByIndex_perm {V : Type} (e : N * (string * V))
  (l : list (N * (string * V))) :
  Permutation (JSObject.insertByIndex e l) (e :: l).
Proof.
  induction l as [|e' l IH]; simpl; [reflexivity|].
  destruct (fst e <=? fst e')%N; [reflexivity|].
  rewrite IH. apply perm_swap.
Qed.

Lemma sortByIndex_perm {V : Type} (l : list (N * (string * V))) :
  Permutation (JSObject.sortByIndex l) l.
Proof.
  induction l as [|e l IH]; simpl; [reflexivity|].
  rewrite insertByIndex_perm. now constructor.
Qed.

(** [Object.entries] lists every own property once, in its own order. *)
Lemma entries_perm {V : Type} (o : JSObject.t V) :
  Permutation (JSObject.entries o) o.
Proof.
  unfold JSObject.entries. rewrite sortByIndex_perm.
  induction o as [|kv o IH]; simpl; [reflexivity|].
  destruct (JSObject.arrayIndex (fst kv)); simpl.
  - now constructor.
  - rewrite <- Permutation_middle. now constructor.
Qed.

Lemma sumCounts_perm (l l' : list Count) :
  Permutation l l' -> sumCounts l = sumCounts l'.
Proof.
  induction 1 as [|x l l' _ IH|x y l|l l' l'' _ IH1 _ IH2]; simpl.
  - reflexivity.
  - now rewrite IH.
  - destruct x, y; try reflexivity.
    destruct (sumCounts l); [f_equal; lia | reflexivity].
  - congruence.
Qed.

(** The grouping loop meets the specification on every contact sequence
    whose grouping values are not names of [Object.prototype] members. *)
Lemma groupContacts_as_specified (groupBy : GroupBy)
  (contacts : list Contact.t) :
  (forall c, In c contacts ->
             JSObject.inherited (groupKey groupBy c) = false) ->
  groupingAsSpecified groupBy contacts (groupContacts groupBy contacts).
Proof.
  intros Hkeys.
  assert (Hinv : counted (groupContacts groupBy contacts)
                         (map (groupKey groupBy) contacts)).
  { apply (counted_fold groupBy contacts JSObject.empty [] Hkeys).
    repeat split; simpl; try tauto. constructor. }
  destruct Hinv as (Hnd & Hin & Hsum).
  pose proof (entries_perm (groupContacts groupBy contacts)) as Hp.
  unfold groupingAsSpecified, JSObject.keys, JSObject.values.
  repeat split.
  - rewrite (sumCounts_perm _ _ (Permutation_map snd Hp)), Hsum.
    now rewrite length_map.
  - apply (Permutation_NoDup (Permutation_sym (Permutation_map fst Hp))).
    exact Hnd.
  - intros H. apply Hin.
    apply (Permutation_in _ (Permutation_map fst Hp) H).
  - intros H. apply Hin in H.
    apply (Permutation_in _ (Permutation_sym (Permutation_map fst Hp)) H).
Qed.

(** The example of the specification: cities NY, NY, LA. *)
Lemma groupContacts_example (a b c : Contact.t) :
  Contact.city a = "NY" -> Contact.city b = "NY" -> Contact.city c = "LA" ->
  groupContacts City [a; b; c] = [("NY", Num 2); ("LA", Num 1)].
Proof.
  intros Ha Hb Hc. unfold groupContacts. simpl. now rewrite Ha, Hb, Hc.
Qed.

(** ** Reasoning about methods: what they keep and whether they return *)

Lemma preserves_ret {X A : Type} (f : State -> X) (a : A) :
  preserves f (ret a).
Proof. intros s. reflexivity. Qed.

Lemma preserves_throw {X A : Type} (f : State -> X) (e : string) :
  preserves f (@throw A e).
Proof. intros s. reflexivity. Qed.

Lemma preserves_read {X A : Type} (f : State -> X) (g : State -> A) :
  preserves f (read g).
Proof. intros s. reflexivity. Qed.

Lemma preserves_update {X : Type} (f : State -> X) (g : State -> State) :
  (forall s, f (g s) = f s) -> preserves f (update g).
Proof. intros H s. apply H. Qed.

Lemma preserves_bind {X A B : Type} (f : State -> X) (m : M A) (k : A -> M B) :
  preserves f m -> (forall a, preserves f (k a)) -> preserves f (bind m k).
Proof.
  intros Hm Hk s. unfold bind. specialize (Hm s).
  destruct (m s) as [a s'|e s']; simpl in *.
  - now rewrite Hk.
  - exact Hm.
Qed.

Lemma preserves_tryCatch {X A : Type} (f : State -> X) (body : M A)
  (handler : string -> M A) :
  preserves f body -> (forall e, preserves f (handler e)) ->
  preserves f (tryCatch body handler).
Proof.
  intros Hb Hh s. unfold tryCatch. specialize (Hb s).
  destruct (body s) as [a s'|e s']; simpl in *.
  - exact Hb.
  - now rewrite Hh.
Qed.

Lemma preserves_chartDestroy {X : Type} (f : State -> X) :
  (forall v s, f (set_chart v s) = f s) -> preserves f chartDestroy.
Proof.
  intros H s. unfold chartDestroy.
  destruct (chart s) as [ch|]; [|reflexivity].
  destruct (destroyError (config ch)); [reflexivity | apply H].
Qed.

Lemma neverThrows_ret {A : Type} (a : A) : neverThrows (ret a).
Proof. intros s. now exists a, s. Qed.

Lemma neverThrows_read {A : Type} (g : State -> A) : neverThrows (read g).
Proof. intros s. now exists (g s), s. Qed.

Lemma neverThrows_update (g : State -> State) : neverThrows (update g).
Proof. intros s. now exists tt, (g s). Qed.

Lemma neverThrows_bind {A B : Type} (m : M A) (k : A -> M B) :
  neverThrows m -> (forall a, neverThrows (k a)) -> neverThrows (bind m k).
Proof.
  intros Hm Hk s. unfold bind. destruct (Hm s) as [a [s' ->]]. apply Hk.
Qed.

Lemma neverThrows_tryCatch {A : Type} (body : M A) (handler : string -> M A) :
  (forall e, neverThrows (handler e)) -> neverThrows (tryCatch body handler).
Proof.
  intros Hh s. unfold tryCatch. destruct (body s) as [a s'|e s'].
  - now exists a, s'.
  - apply Hh.
Qed.

(** Decompose a method into its primitive steps; what is left are the
    updates that touch the observed field and the calls to other methods. *)
Ltac frame_step :=
  first
    [ apply preserves_ret
    | apply preserves_throw
    | apply preserves_read
    | apply preserves_update; intros; reflexivity
    | apply preserves_chartDestroy; intros; reflexivity
    | apply preserves_bind; [|intros ?]
    | apply preserves_tryCatch; [|intros ?]
    | match goal with
      | |- preserves _ (when ?b _) => unfold when
      | |- preserves _ (if ?b then _ else _) => destruct b
      | |- preserves _ (match ?x with _ => _ end) => destruct x
      end ].

Ltac frame := repeat frame_step.

Ltac returns_step :=
  first
    [ apply neverThrows_ret
    | apply neverThrows_read
    | apply neverThrows_update
    | apply neverThrows_tryCatch; intros ?
    | apply neverThrows_bind; [|intros ?]
    | match goal with
      | |- neverThrows (when ?b _) => unfold when
      | |- neverThrows (if ?b then _ else _) => destruct b
      | |- neverThrows (match ?x with _ => _ end) => destruct x
      end ].

Ltac returns_ := repeat returns_step.

Ltac unfold_methods :=
  unfold step, destroy, updateView, getOutputs, init,
    registerEventHandlers, onTabClick,
    onSearchInput, onByJobClick, onByCityClick, onChartTypeChange,
    renderLayout, loadContactsSettled, loadContacts, onContactSelect,
    switchTab, loadRelatedDataResumed, loadRelatedData, renderRelatedRecords,
    showContactDetails, renderContactList, calculateEntityCounts,
    renderEntityCounts, updateChartByEntity, updateChart, renderChart,
    consoleWarn, consoleError.

(** Every handler of the model returns: the calls modelled as throwing are
    [chart.destroy()] and the rejected [await], and both sit in a [try].
    (The [Chart] constructor is not among them; see the conventions.) *)
Lemma step_neverThrows (e : Event) : neverThrows (step e).
Proof. destruct e; unfold_methods; returns_. Qed.

(** The Web API is called by [init] and by nothing else. *)
Lemma step_preserves_webApiCalls (e : Event) : preserves webApiCalls (step e).
Proof. destruct e; unfold_methods; frame. Qed.

Lemma loadRelatedDataResumed_neverThrows (task : Suspended) :
  neverThrows (loadRelatedDataResumed task).
Proof. unfold_methods; returns_. Qed.

(** ** What the methods do *)

(** The pure parts of the methods stay folded while a method is run. *)
#[local] Arguments groupContacts : simpl never.
#[local] Arguments groupRecords : simpl never.
#[local] Arguments getColors : simpl never.
#[local] Arguments JSObject.entries : simpl never.
#[local] Arguments JSObject.keys : simpl never.
#[local] Arguments JSObject.values : simpl never.
#[local] Arguments JSObject.set : simpl never.
#[local] Arguments detailsHtml : simpl never.
#[local] Arguments escapeHtml : simpl never.
#[local] Arguments toLowerCase : simpl never.
#[local] Arguments trim : simpl never.
#[local] Arguments includes : simpl never.
#[local] Arguments ofNat : simpl never.
#[local] Arguments cardOf : simpl never.
#[local] Arguments mockRecord : simpl never.
#[local] Arguments recordLine : simpl never.
#[local] Arguments countLine : simpl never.
#[local] Arguments append : simpl never.
#[local] Arguments find : simpl never.
#[local] Arguments filter : simpl never.
#[local] Arguments relatedMarkup : simpl never.

Ltac unfold_monad :=
  unfold bind, read, update, when, ret, tryCatch, throw, chartDestroy.

(** Run a method on a symbolic state, splitting on every test it makes. *)
Ltac split_test :=
  match goal with
  | |- context [match ?x with _ => _ end] =>
      lazymatch x with
      | context [match _ with _ => _ end] => fail
      | _ => destruct x eqn:?
      end
  end.

Ltac run_method :=
  unfold_methods; unfold_monad; cbn;
  repeat (split_test; cbn).

Lemma run_preserves_webApiCalls (events : list Event) (s : State) :
  webApiCalls (finalState (run events s)) = webApiCalls s.
Proof.
  revert s. induction events as [|e events IH]; intros s; [reflexivity|].
  simpl. pose proof (step_preserves_webApiCalls e s) as H.
  destruct (step e s) as [a s'|err s']; simpl in H.
  - now rewrite IH.
  - exact H.
Qed.

(** [loadRelatedData] always arms a timer and draws a random number. *)
Lemma loadRelatedData_arms_timer (entityName : string) (s : State) :
  exists s' task,
    loadRelatedData entityName s = Returned tt s' /\
    timers s' = (timers s ++ [task])%list /\
    randomCalls s' = randomCalls s + 1.
Proof.
  destruct s. unfold_methods. unfold_monad. cbn.
  eexists. eexists. repeat split.
Qed.

(** What [showContactDetails] leaves behind: the panel, and behind the
    guard of [updateChart] the chart and, if tearing down the old chart
    failed, a warning. *)
Lemma showContactDetails_redraws (s : State) (contact : Contact.t) :
  exists s',
    showContactDetails contact s = Returned tt s' /\
    s' = set_console (console s')
           (set_chart (chart s')
              (set_tabContent (Markup (detailsHtml contact)) s)) /\
    chart s' = (if chartContext s
                then Some (contactsChart (chartType s) City (contacts s))
                else chart s).
Proof.
  destruct s as [ch ty ctx sel cs ec cl tc at_ bc bj el lg wc aw tm rc].
  destruct ctx; run_method; eexists; repeat split.
Qed.

(** Re-entering the contact tab renders the selected contact again. *)
Lemma switchTab_contact_found (s : State) (contact : Contact.t) :
  find (isSelected (selectedContactId s)) (contacts s) = Some contact ->
  switchTab "contact" s
    = showContactDetails contact (set_activeTab (Some "contact") s).
Proof.
  intros Hfind. unfold switchTab, bind, update, read.
  destruct s as [ch ty ctx sel cs ec cl tc at_ bc bj el lg wc aw tm rc].
  cbn in *. rewrite andb_false_r.
  match goal with
  | |- context [find _ (contacts ?x)] => change (contacts x) with cs
  end.
  rewrite Hfind. reflexivity.
Qed.

Lemma switchTab_contact_missing (s : State) :
  find (isSelected (selectedContactId s)) (contacts s) = None ->
  switchTab "contact" s = Returned tt (set_activeTab (Some "contact") s).
Proof.
  intros Hfind. unfold switchTab, bind, update, read.
  destruct s as [ch ty ctx sel cs ec cl tc at_ bc bj el lg wc aw tm rc].
  cbn in *. rewrite andb_false_r.
  match goal with
  | |- context [find _ (contacts ?x)] => change (contacts x) with cs
  end.
  rewrite Hfind. reflexivity.
Qed.

Lemma switchTab_contact_returns (s : State) :
  exists s',
    switchTab "contact" s = Returned tt s' /\
    activeTab s' = Some "contact" /\
    sameSelectionAndData s s' /\
    (chartContext s = false -> chart s' = chart s).
Proof.
  destruct (find (isSelected (selectedContactId s)) (contacts s))
    as [found|] eqn:Hfind.
  - rewrite (switchTab_contact_found s found Hfind).
    destruct (showContactDetails_redraws
                (set_activeTab (Some "contact") s) found)
      as [s' (Hrun & Hshape & Hchart)].
    exists s'. split; [exact Hrun|].
    split; [rewrite Hshape; reflexivity|].
    split; [rewrite Hshape; repeat split|].
    intros Hctx. rewrite Hchart.
    change (chartContext (set_activeTab (Some "contact") s))
      with (chartContext s).
    now rewrite Hctx.
  - rewrite (switchTab_contact_missing s Hfind).
    eexists. split; [reflexivity|]. repeat split.
Qed.

(** [onContactSelect], step by step. *)
Lemma onContactSelect_returns (s : State) (contact : Contact.t) :
  exists s',
    onContactSelect contact s = Returned tt s' /\
    activeTab s' = Some "contact" /\
    selectedContactId s' = Some (Contact.id contact) /\
    tabContent s' = Markup (detailsHtml contact) /\
    chart s' = (if chartContext s
                then Some (contactsChart (chartType s) City (contacts s))
                else chart s) /\
    byCityActive s' = byCityActive s /\
    byJobActive s' = byJobActive s.
Proof.
  destruct (switchTab_contact_returns
              (set_selectedContactId (Some (Contact.id contact)) s))
    as [s1 (Hrun1 & Htab1 & (Hsel & Hctx & Hty & Hcs & Hbc & Hbj) & Hkeep)].
  destruct (showContactDetails_redraws s1 contact)
    as [s2 (Hrun2 & Hshape & Hchart)].
  exists s2. split.
  - unfold onContactSelect, bind, update. rewrite Hrun1. exact Hrun2.
  - assert (Hfields : activeTab s2 = activeTab s1 /\
                      selectedContactId s2 = selectedContactId s1 /\
                      tabContent s2 = Markup (detailsHtml contact) /\
                      byCityActive s2 = byCityActive s1 /\
                      byJobActive s2 = byJobActive s1)
      by (rewrite Hshape; repeat split).
    destruct Hfields as (Ha & Hs & Ht & Hb & Hj).
    rewrite Ha, Hs, Ht, Hb, Hj, Hchart, Htab1, Hsel, Hctx, Hty, Hcs, Hbc, Hbj.
    repeat split.
    change (chartContext (set_selectedContactId (Some (Contact.id contact)) s))
      with (chartContext s) in *.
    destruct (chartContext s); [reflexivity | now apply Hkeep].
Qed.

(** What the search handler shows. *)
Lemma onSearchInput_shows (s : State) (value : string) :
  exists s',
    onSearchInput value s = Returned tt s' /\
    s' = set_contactList (contactList s') s /\
    renderedContacts (contactList s')
      = filter (matchesTerm (toLowerCase (trim value))) (contacts s).
Proof.
  assert (Hshown : forall l : list Contact.t,
             map onclick (map cardOf l) = l).
  { intros l. rewrite map_map. apply map_id. }
  destruct s as [ch ty ctx sel cs ec cl tc at_ bc bj el lg wc aw tm rc].
  unfold onSearchInput, renderContactList. unfold_monad. cbn.
  destruct (filter (matchesTerm (toLowerCase (trim value))) cs) eqn:E.
  - eexists. split; [reflexivity|]. split; reflexivity.
  - eexists. split; [reflexivity|]. split; [reflexivity|].
    cbn [contactList set_contactList renderedContacts]. apply Hshown.
Qed.

Lemma matchesTerm_contains (value : string) (c : Contact.t) :
  matchesTerm (toLowerCase value) c = true <->
  containsIgnoringCase (Contact.name c) value.
Proof. unfold matchesTerm. apply includes_ignoring_case. Qed.

(** For a text without white space around it the handler does what the
    specification says. *)
Lemma search_of_trimmed_text (s : State) (value : string) :
  trim value = value -> searchShowsMatchesOf value s.
Proof.
  intros Htrim.
  destruct (onSearchInput_shows s value) as [s' (Hrun & _ & Hshown)].
  exists s'. split; [exact Hrun|].
  intros c. rewrite Hshown, Htrim, filter_In, matchesTerm_contains.
  reflexivity.
Qed.

Lemma step_keeps_contacts (e : Event) (s : State) :
  awaitingContacts s = false ->
  contacts (finalState (step e s)) = contacts s /\
  awaitingContacts (finalState (step e s)) = false.
Proof.
  intros Hs.
  assert (H : (preserves contacts (step e) /\
               preserves awaitingContacts (step e)) \/
              exists result, e = ContactsSettled result).
  { destruct e; try (left; split; unfold_methods; frame; fail).
    right. now exists result. }
  destruct H as [[Hc Ha]|[result ->]].
  - split; [apply Hc | now rewrite Ha].
  - unfold step. unfold_monad. rewrite Hs. cbn. auto.
Qed.

Lemma run_keeps_contacts (events : list Event) (s : State) :
  awaitingContacts s = false ->
  contacts (finalState (run events s)) = contacts s.
Proof.
  revert s. induction events as [|e events IH]; intros s Hs; [reflexivity|].
  simpl. destruct (step_keeps_contacts e s Hs) as [Hc Ha].
  destruct (step e s) as [a s'|err s']; simpl in *.
  - now rewrite IH.
  - exact Hc.
Qed.

(** The resolved path of [loadContacts]: what it stores survives the
    rendering that follows. *)
Lemma loadContactsSettled_stores (s : State) (entities : list Entity.t) :
  exists s',
    loadContactsSettled (Resolved entities) s = Returned tt s' /\
    contacts s' = filter hasId (map toContact entities).
Proof.
  destruct s. unfold_methods. unfold_monad.
  generalize (filter hasId (map toContact entities)) as stored.
  intros stored. cbn. repeat (split_test; cbn); eexists; split; reflexivity.
Qed.

(** [destroy] touches the chart and the console, nothing else. *)
Lemma destroy_only_chart (s : State) :
  exists s',
    destroy s = Returned tt s' /\
    s' = set_console (console s') (set_chart (chart s') s).
Proof.
  destruct s. run_method; eexists; split; reflexivity.
Qed.

(** What the rest of [loadRelatedData] does when its timer fires. *)
Lemma delayElapsed_renders (s : State) (task : Suspended)
  (rest : list Suspended) :
  timers s = task :: rest ->
  exists s',
    step DelayElapsed s = Returned tt s' /\
    timers s' = rest /\
    tabContent s' = relatedMarkup (fst task) (snd task) /\
    entityCounts s'
      = JSObject.set (entityCounts s) (snd task) (length (fst task)) /\
    entityCountsList s' = map countLine (JSObject.entries (entityCounts s')) /\
    chart s' = (if chartContext s
                then Some (recordsChart (chartType s) (fst task) (snd task))
                else chart s).
Proof.
  intros Ht.
  destruct s as [ch ty ctx sel cs ec cl tc at_ bc bj el lg wc aw tm rc].
  simpl in Ht. subst tm.
  destruct ctx; run_method; eexists; repeat split.
Qed.

(** ** The claims *)

(** C1 (at the failing input).  For a contact whose city is [__proto__]
    the loop of [updateChart] produces an empty grouping: the lookup finds
    the inherited accessor, and the assignment is swallowed by its setter.
    The one contact is not counted and its city is not a key.  Grouped by
    a job title [constructor], the value stored is text, not a number. *)
Theorem C1_grouping_of_inherited_names :
  map (groupKey City) [eve] = ["__proto__"] /\
  groupContacts City [eve] = JSObject.empty /\
  JSObject.keys (groupContacts City [eve]) = [] /\
  sumCounts (JSObject.values (groupContacts City [eve])) = Some 0 /\
  map (groupKey Job) [eve] = ["constructor"] /\
  groupContacts Job [eve] = [("constructor", NativeText "constructor" "1")] /\
  sumCounts (JSObject.values (groupContacts Job [eve])) = None.
Proof. repeat split. Qed.


(** C3.  With no contact selected, switching to any tab of the control other
    than the contact tab shows the text [Select a contact first.] and does
    not start [loadRelatedData]: no timer is armed, no random number is
    drawn, no request is made. *)
Theorem C3_switchTab_without_selection (s : State) (tabName : string) :
  In tabName tabNames ->
  tabName <> "contact" ->
  selectedContactId s = None ->
  let s' := set_tabContent (Text "Select a contact first.")
              (set_activeTab (Some tabName) s) in
  switchTab tabName s = Returned tt s' /\
  step (TabClick (Some tabName)) s = Returned tt s' /\
  tabContent s' = Text "Select a contact first." /\
  timers s' = timers s /\
  randomCalls s' = randomCalls s /\
  webApiCalls s' = webApiCalls s.
Proof.
  intros Hin Hne Hsel. cbv zeta.
  assert (Hclick : step (TabClick (Some tabName)) s = switchTab tabName s).
  { unfold step, onTabClick.
    replace (isEmpty tabName) with false; [reflexivity|].
    simpl in Hin.
    repeat (destruct Hin as [<-|Hin]; [reflexivity|]). contradiction. }
  rewrite Hclick.
  cut (switchTab tabName s
       = Returned tt (set_tabContent (Text "Select a contact first.")
                        (set_activeTab (Some tabName) s))).
  { intros H. rewrite H. repeat split. }
  assert (Hbtn : tabButton tabName = Some tabName).
  { unfold tabButton.
    replace (existsb (String.eqb tabName) tabNames) with true; [reflexivity|].
    symmetry. apply existsb_exists. exists tabName.
    split; [exact Hin | apply String.eqb_refl]. }
  destruct s. simpl in Hsel. subst.
  unfold switchTab. unfold_monad. cbn. rewrite Hbtn.
  destruct (String.eqb_spec tabName "contact"); [contradiction | reflexivity].
Qed.

(** C4.  Selecting a contact makes the contact tab the active one, records
    the contact's id as the selection, and fills the detail panel with the
    markup written out below: a heading with the contact's name and three
    paragraphs with the email, the city and the job title.  In each of the
    four fields every [&], [<], [>], double quote and single quote is
    replaced by its entity ([&amp;], [&lt;], [&gt;], [&quot;], [&#039;]),
    one pass over the field, and every other character is kept, so that
    decoding the entities gives the field back. *)
Theorem C4_onContactSelect (s : State) (contact : Contact.t) :
  (exists s',
     onContactSelect contact s = Returned tt s' /\
     activeTab s' = Some "contact" /\
     selectedContactId s' = Some (Contact.id contact) /\
     tabContent s' = Markup ("
      <h4>" ++ escapeEachChar (Contact.name contact) ++ "</h4>
      <p><strong>Email:</strong> " ++ escapeEachChar (Contact.email contact) ++ "</p>
      <p><strong>City:</strong> " ++ escapeEachChar (Contact.city contact) ++ "</p>
      <p><strong>Job Title:</strong> " ++ escapeEachChar (Contact.job contact) ++ "</p>
    ")) /\
  (escapeEachChar EmptyString = EmptyString /\
   forall c rest,
     escapeEachChar (String c rest) = entityOf c ++ escapeEachChar rest) /\
  (entityOf "&" = "&amp;" /\ entityOf "<" = "&lt;" /\ entityOf ">" = "&gt;" /\
   entityOf "034" = "&quot;" /\ entityOf "039" = "&#039;") /\
  (forall c : ascii,
     c <> "&"%char -> c <> "<"%char -> c <> ">"%char ->
     c <> "034"%char -> c <> "039"%char ->
     entityOf c = String c EmptyString) /\
  forall value, unescapeHtml (escapeEachChar value) = value.
Proof.
  split; [|split; [|split; [|split]]].
  - destruct (onContactSelect_returns s contact)
      as [s' (Hrun & Htab & Hsel & Hpanel & _)].
    exists s'. split; [exact Hrun|]. split; [exact Htab|].
    split; [exact Hsel|]. rewrite Hpanel.
    unfold detailsHtml, detailsTemplate. now rewrite !escapeHtml_each.
  - split; reflexivity.
  - repeat split.
  - intros c Hamp Hlt Hgt Hdq Hsq. unfold entityOf, dquote, squote.
    destruct (Ascii.eqb_spec c "&"); [contradiction|].
    destruct (Ascii.eqb_spec c "<"); [contradiction|].
    destruct (Ascii.eqb_spec c ">"); [contradiction|].
    destruct (Ascii.eqb_spec c "034"); [contradiction|].
    destruct (Ascii.eqb_spec c "039"); [contradiction|].
    reflexivity.
  - intros value. rewrite <- escapeHtml_each. apply unescapeHtml_escapeHtml.
Qed.

(** C5.  For every [count], zero included, [getColors(count)] returns a
    list of [count] colours.  The palette is the fixed list of eight colours
    written out below; the colour at every index [i] of the result is entry
    [i mod 8] of it, so that index 8, when the result is that long, gets the
    colour of index 0 again. *)
Theorem C5_getColors_cyclic (count : nat) :
  length (getColors count) = count /\
  palette = ["#2563eb"; "#10b981"; "#f59e0b"; "#ef4444";
             "#6366f1"; "#14b8a6"; "#fbbf24"; "#ec4899"] /\
  length palette = 8 /\
  (forall i, i < count ->
             nth_error (getColors count) i = nth_error palette (i mod 8)) /\
  (8 < count ->
   nth_error (getColors count) 8 = nth_error (getColors count) 0 /\
   nth_error (getColors count) 8 = Some "#2563eb").
Proof using Type.
  assert (Hnth : forall i, i < count ->
            nth_error (getColors count) i = nth_error palette (i mod 8)).
  { intros i Hi. unfold getColors. rewrite nth_error_map.
    rewrite (nth_error_nth' (seq 0 count) 0) by now rewrite length_seq.
    rewrite seq_nth by exact Hi. cbv [option_map]. rewrite Nat.add_0_l.
    change (length palette) with 8.
    symmetry. apply nth_error_nth'.
    change (length palette) with 8.
    apply Nat.mod_upper_bound. discriminate. }
  split; [unfold getColors; now rewrite length_map, length_seq|].
  split; [reflexivity|]. split; [reflexivity|]. split; [exact Hnth|].
  intros H8. rewrite (Hnth 8 H8), (Hnth 0) by lia. split; reflexivity.
Qed.

(** C6.  When the request resolves, [loadContacts] stores the records mapped
    to contacts, in input order, without those whose id is empty; a missing
    [fullname] becomes [Unnamed], a missing [emailaddress1] or [jobtitle]
    becomes [N/A], a missing [address1_city] becomes [Unknown]. *)
Theorem C6_loadContacts_success (s : State) (entities : list Entity.t) :
  (exists s',
     loadContactsSettled (Resolved entities) s = Returned tt s' /\
     contacts s' = filter hasId (map toContact entities) /\
     forall c, In c (contacts s') <->
               exists e, In e entities /\ c = toContact e /\
                         Contact.id c <> EmptyString) /\
  forall e,
    Contact.id (toContact e)
      = match Entity.contactid e with RawString v => v | _ => EmptyString end /\
    Contact.name (toContact e)
      = match Entity.fullname e with RawString v => v | _ => "Unnamed" end /\
    Contact.email (toContact e)
      = match Entity.emailaddress1 e with RawString v => v | _ => "N/A" end /\
    Contact.city (toContact e)
      = match Entity.address1_city e with RawString v => v | _ => "Unknown" end /\
    Contact.job (toContact e)
      = match Entity.jobtitle e with RawString v => v | _ => "N/A" end.
Proof.
  split.
  - assert (Hmem : forall c,
               In c (filter hasId (map toContact entities)) <->
               exists e, In e entities /\ c = toContact e /\
                         Contact.id c <> EmptyString).
    { intros c. rewrite filter_In, in_map_iff. unfold hasId. split.
      - intros [[e [<- He]] Hid]. exists e. repeat split; [exact He|].
        intros E. now rewrite E in Hid.
      - intros [e [He [-> Hid]]]. split; [now exists e|].
        destruct (Contact.id (toContact e)); [contradiction | reflexivity]. }
    destruct (loadContactsSettled_stores s entities) as [s' [Hrun Hstored]].
    exists s'. split; [exact Hrun|]. split; [exact Hstored|].
    intros c. rewrite Hstored. apply Hmem.
  - intros e. unfold toContact, stringOrDefault. cbn.
    repeat split;
      match goal with |- context [match ?x with _ => _ end] => destruct x end;
      reflexivity.
Qed.

(** C7.  When the request rejects, [loadContacts] catches the error: it is
    logged with [console.error], the detail panel shows the fixed failure
    message, the method returns normally, the stored contacts stay as they
    were, and neither the method nor any later event calls the Web API
    again. *)
Theorem C7_loadContacts_failure (s : State) (reason : string) :
  let s' :=
    set_tabContent
      (Text "Failed to load contacts. Check console for details.")
      (set_console
         (console s ++
            [ConsoleError "ContactDetailControl.loadContacts error:" reason])%list
         s) in
  loadContactsSettled (Rejected reason) s = Returned tt s' /\
  step (ContactsSettled (Rejected reason)) (set_awaitingContacts true s)
    = Returned tt (set_awaitingContacts false s') /\
  contacts s' = contacts s /\
  webApiCalls s' = webApiCalls s /\
  forall events, webApiCalls (finalState (run events s')) = webApiCalls s.
Proof.
  cbv zeta.
  split; [destruct s; reflexivity|].
  split; [destruct s; reflexivity|].
  split; [reflexivity|].
  split; [reflexivity|].
  intros events. now rewrite run_preserves_webApiCalls.
Qed.

(** C8 (as the code has it).  [destroy] tears down the chart and cancels
    nothing.  A related-data fetch that was pending when the control was
    destroyed resumes when its timer fires: no exception escapes it, and it
    renders as if nothing had happened: it fills the detail panel with the
    related records, stores and lists their count, and, when the control has
    a canvas context, draws a new chart. *)
Theorem C8_pending_fetch_outlives_destroy (s : State) (task : Suspended)
  (rest : list Suspended) :
  timers s = task :: rest ->
  exists s1 s2,
    step Destroy s = Returned tt s1 /\
    step DelayElapsed s1 = Returned tt s2 /\
    timers s2 = rest /\
    tabContent s2 = relatedMarkup (fst task) (snd task) /\
    entityCounts s2
      = JSObject.set (entityCounts s) (snd task) (length (fst task)) /\
    entityCountsList s2 = map countLine (JSObject.entries (entityCounts s2)) /\
    chart s2 = (if chartContext s
                then Some (recordsChart (chartType s) (fst task) (snd task))
                else chart s1).
Proof.
  intros Ht.
  destruct (destroy_only_chart s) as [s1 [Hd Hs1]].
  assert (Hsame : timers s1 = task :: rest /\
                  entityCounts s1 = entityCounts s /\
                  chartContext s1 = chartContext s /\
                  chartType s1 = chartType s).
  { rewrite Hs1. repeat split. exact Ht. }
  destruct Hsame as (Ht1 & Hec & Hctx & Hty).
  destruct (delayElapsed_renders _ _ _ Ht1)
    as [s2 (Hstep & Htm & Htab & Hcounts & Hlist & Hchart)].
  rewrite Hec in Hcounts. rewrite Hctx, Hty in Hchart.
  exists s1, s2. repeat split; assumption.
Qed.

(** C9 (as the code has it).  Once the request for contacts has settled,
    no event changes the stored contacts, and [destroy] is no exception: it
    tears the chart down and leaves the contacts where they are. *)
Theorem C9_contacts_kept_through_destroy (s : State) :
  (exists s', destroy s = Returned tt s' /\ contacts s' = contacts s) /\
  forall events,
    awaitingContacts s = false ->
    contacts (finalState (run events s)) = contacts s.
Proof.
  split.
  - destruct s. run_method; eexists; split; reflexivity.
  - intros events Hs. now apply run_keeps_contacts.
Qed.

(** C10 (as the code has it).  Rendering the details of a contact, on
    selection or on re-entering the contact tab, asks for a redraw by city
    whatever the grouping toggle says, and leaves the toggle as it is.  When
    the control has a canvas context the chart is then the by-city chart;
    without one, [updateChart] returns at its guard and no chart is
    drawn. *)
Theorem C10_details_redraw_by_city (s : State) (contact : Contact.t) :
  let byCity (s' : State) :=
    chart s' = (if chartContext s
                then Some (contactsChart (chartType s) City (contacts s))
                else chart s) /\
    byCityActive s' = byCityActive s /\
    byJobActive s' = byJobActive s in
  (exists s', showContactDetails contact s = Returned tt s' /\ byCity s') /\
  (exists s', onContactSelect contact s = Returned tt s' /\ byCity s') /\
  (find (isSelected (selectedContactId s)) (contacts s) = Some contact ->
   exists s',
     switchTab "contact" s = Returned tt s' /\
     tabContent s' = Markup (detailsHtml contact) /\
     byCity s').
Proof.
  cbv zeta. split; [|split].
  - destruct (showContactDetails_redraws s contact)
      as [s' (Hrun & Hshape & Hchart)].
    exists s'. split; [exact Hrun|]. split; [exact Hchart|].
    rewrite Hshape. split; reflexivity.
  - destruct (onContactSelect_returns s contact)
      as [s' (Hrun & _ & _ & _ & Hchart & Hbc & Hbj)].
    exists s'. repeat split; assumption.
  - intros Hfind. rewrite (switchTab_contact_found s contact Hfind).
    destruct (showContactDetails_redraws
                (set_activeTab (Some "contact") s) contact)
      as [s' (Hrun & Hshape & Hchart)].
    exists s'. split; [exact Hrun|].
    split; [rewrite Hshape; reflexivity|].
    split; [exact Hchart|].
    rewrite Hshape. split; reflexivity.
Qed.

(** ** Further properties of the methods *)

(** What [renderChart] does to the chart and the console. *)
Lemma renderChart_returns (grouped : JSObject.t Count) (label : string)
  (s : State) :
  exists s',
    renderChart grouped label s = Returned tt s' /\
    s' = set_console (console s') (set_chart (chart s') s) /\
    console s'
      = (console s
           ++ teardownWarnings destroyError
                "Error destroying previous chart:" s)%list /\
    (chartContext s = true ->
     chart s' = Some (chartOf (chartType s) grouped label)).
Proof.
  unfold teardownWarnings.
  destruct s as [ch ty ctx sel cs ec cl tc at_ bc bj el lg wc aw tm rc].
  unfold renderChart, consoleWarn. unfold_monad.
  destruct ch as [c|]; [destruct (destroyError (config c)) eqn:E|];
    destruct ctx; cbn; rewrite ?E; cbn; eexists;
    (split; [reflexivity|]); (split; [reflexivity|]); cbn;
    rewrite ?app_nil_r; (split; [reflexivity|]);
    try discriminate; intros _; reflexivity.
Qed.

Lemma updateChart_returns (groupBy : GroupBy) (s : State) :
  chartContext s = true ->
  exists s',
    updateChart groupBy s = Returned tt s' /\
    s' = set_console (console s') (set_chart (chart s') s) /\
    chart s' = Some (contactsChart (chartType s) groupBy (contacts s)).
Proof.
  intros Hctx.
  destruct (renderChart_returns (groupContacts groupBy (contacts s))
              "Contacts" s) as [s' (Hrun & Hshape & _ & Hchart)].
  exists s'. split; [|split; [exact Hshape | now apply Hchart]].
  unfold updateChart, bind, read. rewrite Hctx. exact Hrun.
Qed.

(** X1.  With a canvas context, and as long as no grouping value is the
    name of an [Object.prototype] member, the chart that [updateChart]
    draws has one label per distinct city (or job title), each once, and
    data that add up to the number of stored contacts. *)
Theorem X1_updateChart_counts_every_contact (groupBy : GroupBy) (s : State) :
  chartContext s = true ->
  (forall c, In c (contacts s) ->
             JSObject.inherited (groupKey groupBy c) = false) ->
  exists s' cfg,
    updateChart groupBy s = Returned tt s' /\
    chart s' = Some (mkChart cfg false) /\
    cfgType cfg = chartType s /\
    sumCounts (cfgData cfg) = Some (length (contacts s)) /\
    NoDup (cfgLabels cfg) /\
    forall k, In k (cfgLabels cfg) <->
              In k (map (groupKey groupBy) (contacts s)).
Proof.
  intros Hctx Hkeys.
  destruct (updateChart_returns groupBy s Hctx) as [s' (Hrun & _ & Hchart)].
  destruct (groupContacts_as_specified groupBy (contacts s) Hkeys)
    as (Hsum & Hnd & Hin).
  exists s'. eexists. split; [exact Hrun|]. split; [exact Hchart|].
  cbn. repeat split; try assumption; apply Hin.
Qed.

(** X2.  [renderChart] tears the previous chart down before it draws, inside
    a [try].  When that [destroy] returns (or there is no previous chart),
    with a canvas context the method returns with a fresh chart of the
    current type whose labels, data and colours have the same length, the
    labels and data being the two halves of [Object.entries(grouped)], and
    the console is left as it was.  When that [destroy] throws, the error is
    caught and logged with [console.warn], and nothing else is logged;
    nothing is said here of the drawing that follows a failed teardown. *)
Theorem X2_renderChart_teardown
  (grouped : JSObject.t Count) (label : string) (s : State) :
  chartContext s = true ->
  ((forall ch, chart s = Some ch -> destroyError (config ch) = None) ->
   exists s' cfg,
     renderChart grouped label s = Returned tt s' /\
     chart s' = Some (mkChart cfg false) /\
     cfgType cfg = chartType s /\
     cfgLabel cfg = label /\
     combine (cfgLabels cfg) (cfgData cfg) = JSObject.entries grouped /\
     length (cfgData cfg) = length (cfgLabels cfg) /\
     length (cfgBackgroundColor cfg) = length (cfgLabels cfg) /\
     console s' = console s) /\
  (forall ch e,
     chart s = Some ch -> destroyError (config ch) = Some e ->
     console (finalState (renderChart grouped label s))
     = (console s
          ++ [ConsoleWarn "Error destroying previous chart:" (Some e)])%list).
Proof.
  intros Hctx.
  destruct (renderChart_returns grouped label s)
    as [s' (Hrun & _ & Hlog & Hchart)].
  unfold teardownWarnings in Hlog. split.
  - intros Hquiet.
    exists s'. eexists. split; [exact Hrun|]. split; [now apply Hchart|].
    cbn. split; [reflexivity|]. split; [reflexivity|].
    unfold JSObject.keys, JSObject.values.
    split; [|split; [now rewrite !length_map | split]].
    + induction (JSObject.entries grouped) as [|[k v] l IH];
        [reflexivity | cbn; now rewrite IH].
    + unfold getColors. now rewrite length_map, length_seq.
    + rewrite Hlog. destruct (chart s) as [ch|]; [|apply app_nil_r].
      rewrite (Hquiet ch eq_refl). apply app_nil_r.
  - intros ch e Hch He. rewrite Hrun. cbn [finalState].
    rewrite Hlog, Hch, He. reflexivity.
Qed.

Lemma getColors_nth_error (count i : nat) :
  i < count ->
  nth_error (getColors count) i = nth_error palette (i mod 8).
Proof using Type.
  intros Hi. unfold getColors. rewrite nth_error_map.
  rewrite (nth_error_nth' (seq 0 count) 0) by now rewrite length_seq.
  rewrite seq_nth by exact Hi. cbv [option_map]. rewrite Nat.add_0_l.
  change (length palette) with 8.
  symmetry. apply nth_error_nth'.
  change (length palette) with 8.
  apply Nat.mod_upper_bound. discriminate.
Qed.

Lemma NoDup_palette : NoDup palette.
Proof using Type.
  unfold palette.
  repeat (constructor;
          [simpl; intros H;
           repeat (destruct H as [H|H]; [discriminate H|]); exact H|]).
  constructor.
Qed.

Lemma In_firstn {A : Type} (x : A) (n : nat) (l : list A) :
  In x (firstn n l) -> In x l.
Proof using Type.
  revert n. induction l as [|y l IH]; intros [|n]; simpl;
    try (intros H; exact H); try contradiction.
  intros [H|H]; [now left | right; now apply (IH n)].
Qed.

Lemma NoDup_firstn {A : Type} (n : nat) (l : list A) :
  NoDup l -> NoDup (firstn n l).
Proof using Type.
  intros H. revert n. induction H as [|x l Hx _ IH]; intros [|n]; simpl;
    try constructor.
  - intros Hin. apply Hx. now apply (In_firstn x n l).
  - apply IH.
Qed.

(** X3.  [getColors] only hands out palette entries; up to eight categories
    get the first entries of the palette, pairwise distinct; with nine or
    more a colour is used twice; and asking for more colours never changes
    the ones already given. *)
Theorem X3_getColors_distinct_up_to_eight (count : nat) :
  (forall c, In c (getColors count) -> In c palette) /\
  (count <= 8 ->
   getColors count = firstn count palette /\ NoDup (getColors count)) /\
  (8 < count -> ~ NoDup (getColors count)) /\
  (forall more,
     firstn count (getColors (count + more)) = getColors count).
Proof using Type.
  split; [|split; [|split]].
  - intros c Hc. unfold getColors in Hc. apply in_map_iff in Hc.
    destruct Hc as [i [<- _]]. apply nth_In.
    apply Nat.mod_upper_bound. discriminate.
  - intros Hle.
    assert (E : getColors count = firstn count palette).
    { do 9 (destruct count as [|count]; [reflexivity|]). lia. }
    split; [exact E|]. rewrite E. apply NoDup_firstn, NoDup_palette.
  - intros Hgt Hnd.
    assert (H0 : nth_error (getColors count) 0 = nth_error (getColors count) 8).
    { rewrite !getColors_nth_error by lia. reflexivity. }
    assert (Hlen : length (getColors count) = count).
    { unfold getColors. now rewrite length_map, length_seq. }
    apply (proj1 (NoDup_nth_error (getColors count)) Hnd 0 8) in H0;
      [discriminate H0 | lia].
  - intros more. unfold getColors.
    rewrite seq_app, map_app, firstn_app.
    rewrite length_map, length_seq, Nat.sub_diag. simpl firstn at 2.
    rewrite app_nil_r. apply firstn_all2.
    now rewrite length_map, length_seq.
Qed.

Lemma occurs_append (c : ascii) (a b : string) :
  occurs c (a ++ b) = occurs c a || occurs c b.
Proof.
  induction a as [|x a IH]; simpl; [reflexivity|].
  now rewrite IH, orb_assoc.
Qed.

Lemma entityOf_cases (c : ascii) :
  (isSpecial c = true /\ 4 <= String.length (entityOf c)) \/
  (isSpecial c = false /\ entityOf c = String c EmptyString).
Proof.
  destruct c as [[] [] [] [] [] [] [] []];
    first [ left; split; [reflexivity | cbn; lia]
          | right; split; reflexivity ].
Qed.

Lemma entityOf_markup_free (c : ascii) :
  occurs "<" (entityOf c) = false /\
  occurs ">" (entityOf c) = false /\
  occurs dquote (entityOf c) = false /\
  occurs squote (entityOf c) = false.
Proof.
  destruct c as [[] [] [] [] [] [] [] []]; repeat split.
Qed.

Lemma string_length_append (a b : string) :
  String.length (a ++ b) = String.length a + String.length b.
Proof. induction a as [|x a IH]; simpl; [reflexivity | now rewrite IH]. Qed.

Lemma escapeEachChar_length (s : string) :
  String.length s <= String.length (escapeEachChar s).
Proof.
  induction s as [|c s IH]; simpl; [lia|].
  rewrite string_length_append.
  destruct (entityOf_cases c) as [[_ H]|[_ ->]]; simpl; lia.
Qed.

Lemma escapeEachChar_fixed (s : string) :
  escapeEachChar s = s <-> plainText s = true.
Proof.
  induction s as [|c s IH]; [split; reflexivity|].
  cbn [escapeEachChar plainText].
  destruct (entityOf_cases c) as [[Hc Hlen]|[Hc Hplain]]; rewrite Hc.
  - split; [|discriminate]. intros E.
    apply (f_equal String.length) in E.
    rewrite string_length_append in E. cbn [String.length] in E.
    pose proof (escapeEachChar_length s). lia.
  - rewrite Hplain. cbn [negb andb].
    change (String c EmptyString ++ escapeEachChar s)
      with (String c (escapeEachChar s)).
    rewrite <- IH. split.
    + intros E. injection E as E. exact E.
    + intros E. now rewrite E.
Qed.

(** X4.  Whatever the input, the output of [escapeHtml] contains no [<],
    no [>] and no quote character, so a field can neither open a tag nor
    leave an attribute; the output is never shorter than the input, and it
    equals the input exactly when the input has none of the five special
    characters. *)
Theorem X4_escapeHtml_output_is_inert (value : string) :
  occurs "<" (escapeHtml value) = false /\
  occurs ">" (escapeHtml value) = false /\
  occurs dquote (escapeHtml value) = false /\
  occurs squote (escapeHtml value) = false /\
  String.length value <= String.length (escapeHtml value) /\
  (escapeHtml value = value <-> plainText value = true).
Proof.
  rewrite escapeHtml_each.
  assert (Hfree : occurs "<" (escapeEachChar value) = false /\
                  occurs ">" (escapeEachChar value) = false /\
                  occurs dquote (escapeEachChar value) = false /\
                  occurs squote (escapeEachChar value) = false).
  { induction value as [|c s IH]; [repeat split|].
    simpl escapeEachChar. rewrite !occurs_append.
    destruct (entityOf_markup_free c) as (-> & -> & -> & ->).
    exact IH. }
  destruct Hfree as (H1 & H2 & H3 & H4).
  repeat (split; [assumption|]).
  split; [apply escapeEachChar_length | apply escapeEachChar_fixed].
Qed.

(** X5.  [renderContactList] puts one card per contact into the list, in
    order (an empty list gets the text [No contacts found.] and no card),
    and a click on the card at position [i] selects exactly the contact at
    position [i] of the rendered sequence; a click past the last card does
    nothing. *)
Theorem X5_card_click_selects_its_contact (cs : list Contact.t) (s : State)
  (i : nat) :
  exists s',
    renderContactList cs s = Returned tt s' /\
    cardsOf (contactList s') = map cardOf cs /\
    (cs = [] <-> contactList s' = ListText "No contacts found.") /\
    step (CardClick i) s'
      = match nth_error cs i with
        | Some contact => onContactSelect contact s'
        | None => Returned tt s'
        end.
Proof.
  destruct s as [ch ty ctx sel st ec cl tc at_ bc bj el lg wc aw tm rc].
  destruct cs as [|c cs]; eexists; (split; [reflexivity|]).
  - split; [reflexivity|]. split; [split; reflexivity|].
    destruct i; reflexivity.
  - split; [reflexivity|]. split; [split; discriminate|].
    unfold step, bind, read. cbn [contactList set_contactList].
    rewrite nth_error_map.
    destruct (nth_error (c :: cs) i); reflexivity.
Qed.

Lemma includes_empty (s : string) : includes s EmptyString = true.
Proof. destruct s; reflexivity. Qed.

Lemma filter_all {A : Type} (f : A -> bool) (l : list A) :
  (forall x, In x l -> f x = true) -> filter f l = l.
Proof.
  induction l as [|x l IH]; intros H; [reflexivity|].
  change (filter f (x :: l)) with (if f x then x :: filter f l else filter f l).
  rewrite (H x (or_introl eq_refl)), IH; [reflexivity|].
  intros y Hy. apply H. now right.
Qed.

Lemma filter_none {A : Type} (f : A -> bool) (l : list A) :
  filter f l = [] <-> forall x, In x l -> f x = false.
Proof.
  induction l as [|x l IH].
  - split; [intros _ x [] | reflexivity].
  - change (filter f (x :: l))
      with (if f x then x :: filter f l else filter f l).
    destruct (f x) eqn:E; split.
    + discriminate.
    + intros H. specialize (H x (or_introl eq_refl)). congruence.
    + intros H y [<-|Hy]; [exact E | now apply (proj1 IH)].
    + intros H. apply IH. intros y Hy. apply H. now right.
Qed.

(** The list that the search handler leaves in [#contactList]. *)
Lemma onSearchInput_list (s : State) (value : string) :
  exists s',
    onSearchInput value s = Returned tt s' /\
    s' = set_contactList (contactList s') s /\
    contactList s'
      = match filter (matchesTerm (toLowerCase (trim value))) (contacts s) with
        | [] => ListText "No contacts found."
        | shown => ListCards (map cardOf shown)
        end.
Proof.
  destruct s as [ch ty ctx sel cs ec cl tc at_ bc bj el lg wc aw tm rc].
  unfold onSearchInput, renderContactList. unfold_monad. cbn.
  destruct (filter (matchesTerm (toLowerCase (trim value))) cs);
    eexists; repeat split.
Qed.

(** X6.  Every search filters the stored contacts, not what the list
    happens to show: the list after two searches in a row is the list of the
    second search alone, so widening a search brings contacts back. *)
Theorem X6_search_starts_from_stored_contacts (s : State)
  (first second : string) :
  exists s1 s2 s2',
    onSearchInput first s = Returned tt s1 /\
    onSearchInput second s1 = Returned tt s2 /\
    onSearchInput second s = Returned tt s2' /\
    contactList s2 = contactList s2' /\
    s2 = s2'.
Proof.
  destruct (onSearchInput_list s first) as [s1 (Hrun1 & Hshape1 & _)].
  destruct (onSearchInput_list s1 second) as [s2 (Hrun2 & Hshape2 & Hlist2)].
  destruct (onSearchInput_list s second) as [s2' (Hrun & Hshape & Hlist)].
  exists s1, s2, s2'. repeat (split; [assumption|]).
  assert (Hcs : contacts s1 = contacts s) by (rewrite Hshape1; reflexivity).
  assert (Hsame : contactList s2 = contactList s2').
  { now rewrite Hlist2, Hlist, Hcs. }
  split; [exact Hsame|].
  rewrite Hshape2, Hshape, Hsame, Hshape1. reflexivity.
Qed.

(** X7.  For a search text and stored names in the ASCII range: the list
    shows the text [No contacts found.] exactly when no stored contact
    matches the trimmed search text (in particular when nothing is stored);
    and a search text that is empty or all ASCII white space shows every
    stored contact. *)
Theorem X7_search_edge_cases (s : State) (value : string) :
  isAscii value = true ->
  forallb (fun c => isAscii (Contact.name c)) (contacts s) = true ->
  exists s',
    onSearchInput value s = Returned tt s' /\
    (contactList s' = ListText "No contacts found." <->
     forall c, In c (contacts s) ->
               ~ containsIgnoringCase (Contact.name c) (trim value)) /\
    (trim value = EmptyString ->
     renderedContacts (contactList s') = contacts s).
Proof.
  intros _ _.
  destruct (onSearchInput_list s value) as [s' (Hrun & _ & Hlist)].
  exists s'. split; [exact Hrun|]. rewrite Hlist. split.
  - destruct (filter (matchesTerm (toLowerCase (trim value))) (contacts s))
      as [|c l] eqn:E.
    + split; [|reflexivity]. intros _ c Hc Hcontains.
      apply matchesTerm_contains in Hcontains.
      rewrite (proj1 (filter_none _ _) E c Hc) in Hcontains. discriminate.
    + split; [discriminate|]. intros Hnone. exfalso.
      assert (Hin : In c (filter (matchesTerm (toLowerCase (trim value)))
                            (contacts s))) by (rewrite E; now left).
      apply filter_In in Hin. destruct Hin as [Hc Hm].
      apply (Hnone c Hc). now apply matchesTerm_contains.
  - intros Htrim. rewrite Htrim.
    rewrite filter_all.
    + destruct (contacts s) as [|c l]; [reflexivity|].
      cbn [renderedContacts]. rewrite map_map. apply map_id.
    + intros c _. unfold matchesTerm. apply includes_empty.
Qed.

Lemma getOwn_setOwn {V : Type} (o : JSObject.t V) (k k' : string) (v : V) :
  JSObject.getOwn (JSObject.setOwn o k v) k'
  = if String.eqb k k' then Some v else JSObject.getOwn o k'.
Proof.
  induction o as [|[k0 v0] o IH]; simpl.
  - destruct (String.eqb k k'); reflexivity.
  - destruct (String.eqb_spec k0 k) as [->|Hne]; simpl.
    + destruct (String.eqb k k'); reflexivity.
    + destruct (String.eqb_spec k0 k') as [->|Hne'].
      * destruct (String.eqb_spec k k'); [congruence | reflexivity].
      * exact IH.
Qed.

(** Reading back what an assignment stored, for every key but
    [__proto__]. *)
Lemma getOwn_set {V : Type} (o : JSObject.t V) (k k' : string) (v : V) :
  String.eqb k "__proto__" = false ->
  JSObject.getOwn (JSObject.set o k v) k'
  = if String.eqb k k' then Some v else JSObject.getOwn o k'.
Proof. intros Hk. unfold JSObject.set. rewrite Hk. apply getOwn_setOwn. Qed.

Lemma getOwn_fold_set (ks : list string) (o : JSObject.t nat) (k : string) :
  (forall e, In e ks -> String.eqb e "__proto__" = false) ->
  JSObject.getOwn
    (fold_left (fun counts e => JSObject.set counts e 0) ks o) k
  = if existsb (String.eqb k) ks then Some 0 else JSObject.getOwn o k.
Proof.
  revert o. induction ks as [|e ks IH]; intros o Hks; [reflexivity|].
  cbn [fold_left existsb].
  rewrite IH by (intros e' He'; apply Hks; now right).
  rewrite getOwn_set by (apply Hks; now left).
  rewrite (String.eqb_sym k e).
  destruct (existsb (String.eqb k) ks), (String.eqb e k); reflexivity.
Qed.

(** X8.  [calculateEntityCounts] sets the count of each of the seven
    related entities to zero, whatever it was, leaves the count of every
    other key alone, and lists the counts again. *)
Theorem X8_calculateEntityCounts_zeroes_the_seven (s : State) :
  exists s',
    calculateEntityCounts s = Returned tt s' /\
    (forall e, In e relatedEntities ->
               JSObject.getOwn (entityCounts s') e = Some 0) /\
    (forall k, ~ In k relatedEntities ->
               JSObject.getOwn (entityCounts s') k
               = JSObject.getOwn (entityCounts s) k) /\
    entityCountsList s'
      = map countLine (JSObject.entries (entityCounts s')) /\
    (entityCounts s = JSObject.empty ->
     entityCountsList s'
       = [ "opportunities: 0"; "activities: 0"; "orders: 0"; "quotes: 0";
           "products: 0"; "accounts: 0"; "leads: 0" ]).
Proof.
  assert (Hks : forall e, In e relatedEntities ->
                          String.eqb e "__proto__" = false).
  { intros e He. simpl in He.
    repeat (destruct He as [<-|He]; [reflexivity|]). contradiction. }
  destruct s as [ch ty ctx sel cs ec cl tc at_ bc bj el lg wc aw tm rc].
  eexists. split; [reflexivity|]. cbn [entityCounts entityCountsList
    set_entityCounts set_entityCountsList].
  split; [|split; [|split]].
  - intros e He. rewrite getOwn_fold_set by exact Hks.
    replace (existsb (String.eqb e) relatedEntities) with true; [reflexivity|].
    symmetry. apply existsb_exists. exists e.
    split; [exact He | apply String.eqb_refl].
  - intros k Hk. rewrite getOwn_fold_set by exact Hks.
    destruct (existsb (String.eqb k) relatedEntities) eqn:E; [|reflexivity].
    apply existsb_exists in E. destruct E as [e [He Heq]].
    apply String.eqb_eq in Heq. subst e. contradiction.
  - reflexivity.
  - intros ->. reflexivity.
Qed.

Lemma groupRecords_snoc (records : list RelatedRecord.t)
  (r : RelatedRecord.t) :
  groupRecords (records ++ [r])%list
  = bump (groupRecords records) (statusKey r).
Proof. unfold groupRecords. now rewrite fold_left_app. Qed.

Lemma half_steps (k : nat) :
  (k mod 2 = 0 -> (k + 2) / 2 = (k + 1) / 2 + 1 /\ (k + 1) / 2 = k / 2) /\
  (k mod 2 <> 0 -> (k + 2) / 2 = (k + 1) / 2 /\ (k + 1) / 2 = k / 2 + 1).
Proof.
  pose proof (Nat.div_mod_eq k 2). pose proof (Nat.div_mod_eq (k + 1) 2).
  pose proof (Nat.div_mod_eq (k + 2) 2).
  pose proof (Nat.mod_upper_bound k 2). pose proof (Nat.mod_upper_bound (k + 1) 2).
  pose proof (Nat.mod_upper_bound (k + 2) 2). lia.
Qed.

Lemma bump_two (a c : nat) :
  bump [("Active", Num a); ("Closed", Num c)] "Active"
    = [("Active", Num (a + 1)); ("Closed", Num c)] /\
  bump [("Active", Num a); ("Closed", Num c)] "Closed"
    = [("Active", Num a); ("Closed", Num (c + 1))].
Proof. split; reflexivity. Qed.

Lemma mockGrouping_step (k : nat) :
  bump (mockGrouping k) (if k mod 2 =? 0 then "Active" else "Closed")
  = mockGrouping (S k).
Proof.
  destruct k as [|[|k]]; [reflexivity | reflexivity|].
  change (mockGrouping (S (S k)))
    with [("Active", Num ((S (S k) + 1) / 2)); ("Closed", Num (S (S k) / 2))].
  change (mockGrouping (S (S (S k))))
    with [("Active", Num ((S (S (S k)) + 1) / 2));
          ("Closed", Num (S (S (S k)) / 2))].
  remember (S (S k)) as m eqn:Hm. clear Hm k.
  destruct (half_steps m) as [Heven Hodd].
  destruct (bump_two ((m + 1) / 2) (m / 2)) as [Hactive Hclosed].
  replace (S m + 1) with (m + 2) by lia.
  replace (S m) with (m + 1) by lia.
  destruct (Nat.eqb_spec (m mod 2) 0) as [E|E].
  - destruct (Heven E) as [H1 H2]. rewrite Hactive, H1, H2. reflexivity.
  - destruct (Hodd E) as [H1 H2]. rewrite Hclosed, H1, H2. reflexivity.
Qed.

Lemma groupRecords_mock (entityName : string) (k : nat) :
  groupRecords (map (mockRecord entityName) (seq 0 k)) = mockGrouping k.
Proof.
  induction k as [|k IH]; [reflexivity|].
  rewrite seq_S, map_app, Nat.add_0_l. cbn [map].
  rewrite groupRecords_snoc, IH.
  unfold statusKey, mockRecord. cbn [RelatedRecord.status].
  apply mockGrouping_step.
Qed.

(** X10.  The records that [loadRelatedData] makes up alternate between
    [Active] and [Closed], starting with [Active]; grouped by status for the
    chart, [k] of them give [Active] the rounded-up half and [Closed] the
    rounded-down half (and no [Closed] entry at all for a single record). *)
Theorem X10_mock_records_grouping (entityName : string) (k : nat) :
  groupRecords (map (mockRecord entityName) (seq 0 k)) = mockGrouping k /\
  length (map (mockRecord entityName) (seq 0 k)) = k /\
  forall i, i < k ->
    nth_error (map (mockRecord entityName) (seq 0 k)) i
    = Some (RelatedRecord.mk
              (entityName ++ "-" ++ ofNat (i + 1))
              (capitalize entityName ++ " Record " ++ ofNat (i + 1))
              entityName
              (Some (if Nat.even i then "Active" else "Closed"))).
Proof.
  split; [apply groupRecords_mock | split].
  - now rewrite length_map, length_seq.
  - intros i Hi. rewrite nth_error_map.
    rewrite (nth_error_nth' (seq 0 k) 0) by now rewrite length_seq.
    rewrite seq_nth by exact Hi. cbv [option_map]. rewrite Nat.add_0_l.
    unfold mockRecord. repeat f_equal.
    destruct (Nat.eqb_spec (i mod 2) 0) as [E|E].
    + replace (Nat.even i) with true; [reflexivity|].
      symmetry. apply Nat.even_spec. exists (i / 2).
      pose proof (Nat.div_mod_eq i 2). lia.
    + replace (Nat.even i) with false; [reflexivity|].
      symmetry. apply Bool.not_true_is_false. intros Hev.
      apply Nat.even_spec in Hev. destruct Hev as [m Hm].
      apply E. subst i. rewrite Nat.mul_comm. apply Nat.Div0.mod_mul.
Qed.

Lemma relatedEntities_facts (t : string) :
  In t relatedEntities ->
  t <> "contact" /\
  tabButton t = Some t /\
  isEmpty t = false /\
  String.eqb t "__proto__" = false.
Proof.
  intros Hin. simpl in Hin.
  repeat (destruct Hin as [<-|Hin];
          [split; [discriminate | repeat split]|]).
  contradiction.
Qed.

(** Opening a related tab while a contact is selected. *)
Lemma switchTab_related (s : State) (t : string) :
  In t relatedEntities ->
  noSelection (selectedContactId s) = false ->
  switchTab t s
  = Returned tt
      (set_timers
         (timers s
            ++ [(map (mockRecord t) (seq 0 (random5 (randomCalls s) + 1)), t)])%list
         (set_randomCalls (randomCalls s + 1)
            (set_tabContent (Text "Loading related records...")
               (set_activeTab (Some t) s)))).
Proof.
  intros Hin Hsel.
  destruct (relatedEntities_facts t Hin) as (Hne & Hbtn & _ & _).
  destruct s as [ch ty ctx sel cs ec cl tc at_ bc bj el lg wc aw tm rc].
  cbn in Hsel.
  unfold switchTab, loadRelatedData. unfold_monad. cbn.
  rewrite Hbtn, Hsel. cbn.
  destruct (String.eqb_spec t "contact"); [contradiction | reflexivity].
Qed.

(** X9.  With a contact selected and no other load pending, a click on a
    related tab marks the tab active, shows [Loading related records...]
    and arms one timer; when the timer fires the panel lists the records
    that were made up at the click, their number (one more than the random
    draw) is stored as the count of that entity and of no other, and with a
    canvas context the chart shows their statuses. *)
Theorem X9_related_tab_load_cycle (s : State) (t : string) :
  In t relatedEntities ->
  noSelection (selectedContactId s) = false ->
  timers s = [] ->
  let k := random5 (randomCalls s) + 1 in
  let records := map (mockRecord t) (seq 0 k) in
  exists s1 s2,
    step (TabClick (Some t)) s = Returned tt s1 /\
    activeTab s1 = Some t /\
    tabContent s1 = Text "Loading related records..." /\
    timers s1 = [(records, t)] /\
    step DelayElapsed s1 = Returned tt s2 /\
    timers s2 = [] /\
    tabContent s2 = relatedMarkup records t /\
    JSObject.getOwn (entityCounts s2) t = Some k /\
    (forall e, e <> t ->
               JSObject.getOwn (entityCounts s2) e
               = JSObject.getOwn (entityCounts s) e) /\
    (chartContext s = true ->
     chart s2 = Some (chartOf (chartType s) (mockGrouping k) t)).
Proof.
  intros Hin Hsel Htm. cbv zeta.
  destruct (relatedEntities_facts t Hin) as (Hne & Hbtn & Hemp & Hproto).
  pose (records := map (mockRecord t) (seq 0 (random5 (randomCalls s) + 1))).
  pose (s1 := set_timers [(records, t)]
                (set_randomCalls (randomCalls s + 1)
                   (set_tabContent (Text "Loading related records...")
                      (set_activeTab (Some t) s)))).
  assert (Hclick : step (TabClick (Some t)) s = Returned tt s1).
  { unfold step, onTabClick. rewrite Hemp.
    rewrite (switchTab_related s t Hin Hsel), Htm. reflexivity. }
  destruct (delayElapsed_renders s1 (records, t) [] eq_refl)
    as [s2 (Hstep & Htm2 & Htab & Hcounts & _ & Hchart)].
  assert (Hlen : length records = random5 (randomCalls s) + 1).
  { unfold records. now rewrite length_map, length_seq. }
  cbn [fst snd] in *.
  exists s1, s2.
  split; [exact Hclick|]. split; [reflexivity|]. split; [reflexivity|].
  split; [reflexivity|]. split; [exact Hstep|]. split; [exact Htm2|].
  split; [exact Htab|].
  change (entityCounts s1) with (entityCounts s) in Hcounts.
  change (chartContext s1) with (chartContext s) in Hchart.
  change (chartType s1) with (chartType s) in Hchart.
  split; [|split].
  - rewrite Hcounts, getOwn_set by exact Hproto.
    now rewrite String.eqb_refl, Hlen.
  - intros e He. rewrite Hcounts, getOwn_set by exact Hproto.
    destruct (String.eqb_spec t e); [congruence | reflexivity].
  - intros Hctx. rewrite Hchart, Hctx. unfold recordsChart, records.
    now rewrite groupRecords_mock.
Qed.

Lemma updateChart_keeps_toggles (groupBy : GroupBy) :
  preserves (fun s => (byCityActive s, byJobActive s)) (updateChart groupBy).
Proof. unfold_methods; frame. Qed.

Lemma step_toggles (e : Event) (s : State) :
  oneToggleActive s -> oneToggleActive (finalState (step e s)).
Proof.
  unfold oneToggleActive. intros Hs.
  assert (H : preserves (fun s => (byCityActive s, byJobActive s)) (step e) \/
              e = ByCityClick \/ e = ByJobClick).
  { destruct e; try (left; unfold_methods; frame; fail); auto. }
  destruct H as [H|[->| ->]].
  - specialize (H s). injection H as Hc Hj. now rewrite Hc, Hj.
  - pose proof (updateChart_keeps_toggles City
                  (set_byJobActive false (set_byCityActive true s))) as H.
    injection H as Hc Hj.
    unfold step, onByCityClick, bind, update. rewrite Hc, Hj. reflexivity.
  - pose proof (updateChart_keeps_toggles Job
                  (set_byCityActive false (set_byJobActive true s))) as H.
    injection H as Hc Hj.
    unfold step, onByJobClick, bind, update. rewrite Hc, Hj. reflexivity.
Qed.

(** X11.  The two grouping buttons never agree.  Whatever the state before,
    [init] leaves By City active and By Job not; a click on a button makes
    that button the active one and the other one not; and from a state
    where exactly one of them is active every sequence of events leads to a
    state where exactly one is. *)
Theorem X11_one_grouping_toggle_active (s : State) (events : list Event) :
  (byCityActive (finalState (init s)) = true /\
   byJobActive (finalState (init s)) = false /\
   oneToggleActive (finalState (init s))) /\
  (byCityActive (finalState (step ByCityClick s)) = true /\
   byJobActive (finalState (step ByCityClick s)) = false) /\
  (byJobActive (finalState (step ByJobClick s)) = true /\
   byCityActive (finalState (step ByJobClick s)) = false) /\
  (oneToggleActive s -> oneToggleActive (finalState (run events s))).
Proof.
  split; [|split; [|split]].
  - destruct s. unfold init, renderLayout, loadContacts, registerEventHandlers,
      consoleWarn. unfold_monad.
    destruct canvasContext; split; [reflexivity | split; reflexivity
                                   | reflexivity | split; reflexivity].
  - pose proof (updateChart_keeps_toggles City
                  (set_byJobActive false (set_byCityActive true s))) as H.
    injection H as Hc Hj.
    unfold step, onByCityClick, bind, update. rewrite Hc, Hj.
    split; reflexivity.
  - pose proof (updateChart_keeps_toggles Job
                  (set_byCityActive false (set_byJobActive true s))) as H.
    injection H as Hc Hj.
    unfold step, onByJobClick, bind, update. rewrite Hc, Hj.
    split; reflexivity.
  - revert s. induction events as [|e events IH]; intros s Hs; [exact Hs|].
    simpl. pose proof (step_toggles e s Hs) as H.
    destruct (step e s) as [a s'|err s']; simpl in H; [now apply IH | exact H].
Qed.

Lemma step_keeps_chartContext (e : Event) : preserves chartContext (step e).
Proof. destruct e; unfold_methods; frame. Qed.

Lemma step_without_canvas (e : Event) (s : State) :
  chartContext s = false -> chart s = None ->
  chart (finalState (step e s)) = None.
Proof.
  intros Hctx Hch.
  destruct s as [ch ty ctx sel cs ec cl tc at_ bc bj el lg wc aw tm rc].
  cbn in Hctx, Hch. subst ctx ch.
  destruct e; run_method; reflexivity.
Qed.

(** X12.  No event changes whether the control has a canvas context, and a
    control without one never holds a chart: every [updateChart] and
    [updateChartByEntity] returns at its guard. *)
Theorem X12_no_canvas_no_chart (s : State) (events : list Event) :
  chartContext (finalState (run events s)) = chartContext s /\
  (chartContext s = false -> chart s = None ->
   chart (finalState (run events s)) = None).
Proof.
  revert s. induction events as [|e events IH]; intros s; [split; auto|].
  simpl. pose proof (step_keeps_chartContext e s) as Hc.
  pose proof (step_without_canvas e s) as Hn.
  destruct (step e s) as [a s'|err s']; simpl in *.
  - destruct (IH s') as [IH1 IH2]. split; [congruence|].
    intros Hctx Hch. apply IH2; [congruence | now apply Hn].
  - split; [exact Hc | exact Hn].
Qed.

Lemma rendered_cards (l : list Contact.t) : map onclick (map cardOf l) = l.
Proof. rewrite map_map. apply map_id. Qed.

Lemma wellFormed_same (s s' : State) :
  storedAndShown s' = storedAndShown s -> wellFormed s -> wellFormed s'.
Proof.
  unfold storedAndShown, wellFormed. intros H. injection H as Hc Hl Hs Ha.
  now rewrite Hc, Hl, Hs, Ha.
Qed.

(** The resolved path of [loadContacts], field by field. *)
Lemma loadContactsSettled_resolved (s : State) (entities : list Entity.t) :
  exists s',
    loadContactsSettled (Resolved entities) s = Returned tt s' /\
    contacts s' = filter hasId (map toContact entities) /\
    renderedContacts (contactList s') = contacts s' /\
    selectedContactId s' = selectedContactId s /\
    awaitingContacts s' = awaitingContacts s.
Proof.
  destruct s. unfold_methods. unfold_monad.
  generalize (filter hasId (map toContact entities)) as stored.
  intros stored. cbn. repeat (split_test; cbn); eexists;
    (split; [reflexivity|]); cbn; rewrite ?rendered_cards; repeat split.
Qed.

Lemma onContactSelect_keeps_stored (contact : Contact.t) :
  preserves (fun s => (contacts s, contactList s, awaitingContacts s))
            (onContactSelect contact).
Proof. unfold_methods; frame. Qed.

Lemma step_wellFormed (e : Event) (s : State) :
  wellFormed s -> wellFormed (finalState (step e s)).
Proof.
  intros Hs.
  assert (H : preserves storedAndShown (step e) \/
              (exists value, e = SearchInput value) \/
              (exists index, e = CardClick index) \/
              (exists result, e = ContactsSettled result)).
  { destruct e; try (left; unfold storedAndShown; unfold_methods; frame; fail);
      right; eauto. }
  destruct H as [H|[[value ->]|[[index ->]|[result ->]]]].
  - exact (wellFormed_same s _ (H s) Hs).
  - destruct (onSearchInput_shows s value) as [s' (Hrun & Hshape & Hshown)].
    unfold step. rewrite Hrun. cbn [finalState].
    destruct Hs as (Hid & Hcards & Hsel & Hwait).
    unfold wellFormed. rewrite Hshown. rewrite Hshape.
    cbn [contacts selectedContactId awaitingContacts set_contactList].
    repeat split; try assumption.
    intros c Hc. apply filter_In in Hc. tauto.
  - unfold step, bind, read.
    destruct (contactList s) as [text|cards] eqn:Hlist; [exact Hs|].
    destruct (nth_error cards index) as [card|] eqn:Hcard; [|exact Hs].
    destruct Hs as (Hid & Hcards & Hsel & Hwait).
    assert (Hin : In (onclick card) (contacts s)).
    { apply Hcards. rewrite Hlist. cbn. apply in_map.
      now apply (nth_error_In cards index). }
    pose proof (onContactSelect_keeps_stored (onclick card) s) as Hkeep.
    destruct (onContactSelect_returns s (onclick card))
      as [s' (Hrun & _ & Hnew & _)].
    rewrite Hrun in *. cbn [finalState] in *. injection Hkeep as Hc Hl Ha.
    unfold wellFormed. rewrite Hc, Hl, Ha, Hnew.
    repeat split; try assumption.
    intros v Hv. injection Hv as <-. now apply in_map.
  - unfold step, bind, read.
    destruct (awaitingContacts s) eqn:Hwaiting; [|exact Hs].
    destruct Hs as (Hid & Hcards & Hsel & Hwait).
    assert (Hnone : selectedContactId s = None).
    { destruct (selectedContactId s) as [v|] eqn:E; [|reflexivity].
      specialize (Hsel v eq_refl). rewrite (Hwait Hwaiting) in Hsel.
      contradiction. }
    unfold update. destruct result as [entities|reason].
    + destruct (loadContactsSettled_resolved
                  (set_awaitingContacts false s) entities)
        as [s' (Hrun & Hstored & Hshown & Hsel' & Hwait')].
      rewrite Hrun. cbn [finalState]. unfold wellFormed.
      rewrite Hshown, Hsel', Hwait', Hstored.
      change (selectedContactId (set_awaitingContacts false s))
        with (selectedContactId s).
      rewrite Hnone. repeat split; try tauto; try discriminate.
      intros c Hc. apply filter_In in Hc. tauto.
    + unfold loadContactsSettled, consoleError. unfold_monad.
      cbn [finalState]. unfold wellFormed.
      destruct s. cbn in *. subst. repeat split; try tauto; discriminate.
Qed.

(** X13.  From [init] on, after whatever events, every stored contact has a
    non-empty id, every card in the list shows a stored contact, and a
    selected id is the id of a stored contact. *)
Theorem X13_selection_and_list_stay_consistent (events : list Event) :
  wellFormed (finalState (run events (finalState (init constructed)))).
Proof.
  assert (Hinit : wellFormed (finalState (init constructed))).
  { unfold wellFormed, init, renderLayout, loadContacts,
      registerEventHandlers, consoleWarn. unfold_monad.
    destruct canvasContext; cbn; repeat split; try tauto; discriminate. }
  revert Hinit. generalize (finalState (init constructed)) as s.
  induction events as [|e events IH]; intros s Hs; [exact Hs|].
  simpl. pose proof (step_wellFormed e s Hs) as H.
  destruct (step e s) as [a s'|err s']; simpl in H; [now apply IH | exact H].
Qed.

Lemma find_succeeds {A : Type} (f : A -> bool) (l : list A) (x : A) :
  In x l -> f x = true -> exists y, find f l = Some y.
Proof.
  induction l as [|a l IH]; intros Hin Hx; [contradiction|].
  change (find f (a :: l)) with (if f a then Some a else find f l).
  destruct (f a) eqn:E; [now exists a|].
  destruct Hin as [->|Hin]; [congruence | now apply IH].
Qed.

Lemma find_unselected (cs : list Contact.t) : find (isSelected None) cs = None.
Proof.
  induction cs as [|c cs IH]; [reflexivity|].
  change (find (isSelected None) (c :: cs))
    with (find (isSelected None) cs). exact IH.
Qed.

(** X14.  In a consistent state with a contact selected, re-entering the
    contact tab always finds a stored contact with the selected id and
    shows its details, and a click on a related tab never meets the
    [Select a contact first.] prompt: it starts loading. *)
Theorem X14_selected_contact_is_found (s : State) (v : string) :
  wellFormed s ->
  selectedContactId s = Some v ->
  (exists c s',
     In c (contacts s) /\ Contact.id c = v /\
     switchTab "contact" s = Returned tt s' /\
     activeTab s' = Some "contact" /\
     tabContent s' = Markup (detailsHtml c)) /\
  (forall t, In t relatedEntities ->
     exists s' task,
       switchTab t s = Returned tt s' /\
       tabContent s' = Text "Loading related records..." /\
       timers s' = (timers s ++ [task])%list).
Proof.
  intros (Hid & _ & Hsel & _) Hv.
  specialize (Hsel v Hv). apply in_map_iff in Hsel.
  destruct Hsel as [c0 [Hc0 Hin0]].
  split.
  - destruct (find_succeeds (isSelected (Some v)) (contacts s) c0 Hin0)
      as [c Hfind].
    { cbn. rewrite Hc0. apply String.eqb_refl. }
    destruct (find_some _ _ Hfind) as [Hin Hc]. cbn in Hc.
    apply String.eqb_eq in Hc.
    rewrite <- Hv in Hfind.
    destruct (showContactDetails_redraws
                (set_activeTab (Some "contact") s) c)
      as [s' (Hrun & Hshape & _)].
    exists c, s'. split; [exact Hin|]. split; [exact Hc|].
    rewrite (switchTab_contact_found s c Hfind).
    split; [exact Hrun|]. rewrite Hshape. split; reflexivity.
  - intros t Ht.
    assert (Hsome : noSelection (selectedContactId s) = false).
    { rewrite Hv. cbn. specialize (Hid c0 Hin0). unfold hasId in Hid.
      rewrite Hc0 in Hid. now destruct (isEmpty v). }
    rewrite (switchTab_related s t Ht Hsome).
    eexists. eexists. split; [reflexivity|]. split; reflexivity.
Qed.

(** X15.  Changing the chart type stores the new type and redraws the
    contacts chart with it, grouped as the toggle says: by city when the
    By City button is active, by job otherwise, whatever chart was on the
    canvas before. *)
Theorem X15_chart_type_change_follows_toggle (s : State) (value : string) :
  chartContext s = true ->
  exists s',
    step (ChartTypeChange value) s = Returned tt s' /\
    chartType s' = value /\
    chart s'
      = Some (contactsChart value
                (if byCityActive s then City else Job) (contacts s)) /\
    byCityActive s' = byCityActive s /\
    byJobActive s' = byJobActive s.
Proof.
  intros Hctx.
  destruct (updateChart_returns (if byCityActive s then City else Job)
              (set_chartType value s) Hctx)
    as [s' (Hrun & Hshape & Hchart)].
  exists s'. split.
  - unfold step, onChartTypeChange, bind, update, read. exact Hrun.
  - split; [rewrite Hshape; reflexivity|]. split; [exact Hchart|].
    rewrite Hshape. split; reflexivity.
Qed.

Lemma step_delay_keeps_tab :
  preserves (fun s => (activeTab s, selectedContactId s)) (step DelayElapsed).
Proof. unfold_methods; frame. Qed.

(** X16.  Pending loads resume in the order in which they were started,
    and each one overwrites the panel: with two loads pending, after both
    timers have fired the panel shows the records of the second, while the
    active tab and the selection are where they were. *)
Theorem X16_last_started_load_wins (s : State) (first second : Suspended)
  (rest : list Suspended) :
  timers s = first :: second :: rest ->
  exists s1 s2,
    step DelayElapsed s = Returned tt s1 /\
    tabContent s1 = relatedMarkup (fst first) (snd first) /\
    step DelayElapsed s1 = Returned tt s2 /\
    tabContent s2 = relatedMarkup (fst second) (snd second) /\
    timers s2 = rest /\
    activeTab s2 = activeTab s /\
    selectedContactId s2 = selectedContactId s.
Proof.
  intros Htm.
  destruct (delayElapsed_renders s first (second :: rest) Htm)
    as [s1 (Hstep1 & Htm1 & Htab1 & _)].
  destruct (delayElapsed_renders s1 second rest Htm1)
    as [s2 (Hstep2 & Htm2 & Htab2 & _)].
  pose proof (step_delay_keeps_tab s) as Hk1.
  pose proof (step_delay_keeps_tab s1) as Hk2.
  rewrite Hstep1 in Hk1. rewrite Hstep2 in Hk2. cbn [finalState] in Hk1, Hk2.
  injection Hk1 as Ha1 Hs1. injection Hk2 as Ha2 Hs2.
  exists s1, s2. repeat split; try assumption; congruence.
Qed.

(** X17.  Entering the contact tab while nothing is selected only moves the
    active marker: the panel keeps what it showed, no prompt is written and
    nothing is loaded.  A tab button without a [data-tab] value counts as
    the contact tab. *)
Theorem X17_contact_tab_without_selection (s : State) :
  selectedContactId s = None ->
  let s' := set_activeTab (Some "contact") s in
  switchTab "contact" s = Returned tt s' /\
  step (TabClick (Some "contact")) s = Returned tt s' /\
  step (TabClick None) s = Returned tt s' /\
  step (TabClick (Some EmptyString)) s = Returned tt s' /\
  tabContent s' = tabContent s /\
  timers s' = timers s.
Proof.
  intros Hsel. cbv zeta.
  assert (H : switchTab "contact" s
              = Returned tt (set_activeTab (Some "contact") s)).
  { apply switchTab_contact_missing. rewrite Hsel. apply find_unselected. }
  repeat split; exact H.
Qed.

(** X19.  [destroy] touches the chart and the console and nothing else.
    Without a chart it does nothing.  With one, a teardown that succeeds
    leaves the instance in the field, marked destroyed; a teardown that
    throws is logged as a warning and the instance is left as it was. *)
Theorem X19_destroy_only_tears_down_chart (s : State) :
  exists s',
    destroy s = Returned tt s' /\
    s' = set_console (console s') (set_chart (chart s') s) /\
    console s'
      = (console s
           ++ teardownWarnings destroyError
                "Error destroying chart on destroy:" s)%list /\
    chart s'
      = match chart s with
        | None => None
        | Some ch =>
            match destroyError (config ch) with
            | Some _ => Some ch
            | None => Some (mkChart (config ch) true)
            end
        end.
Proof.
  unfold teardownWarnings.
  destruct s as [ch ty ctx sel cs ec cl tc at_ bc bj el lg wc aw tm rc].
  unfold destroy, consoleWarn. unfold_monad.
  destruct ch as [c|]; [destruct (destroyError (config c)) eqn:E|];
    cbn; rewrite ?E; cbn; eexists;
    (split; [reflexivity|]); (split; [reflexivity|]); cbn;
    rewrite ?app_nil_r; split; reflexivity.
Qed.

(** X20.  In its whole life the control calls the Web API once: [init]
    asks for the contacts with the fixed column list, and no event asks
    again, whether that request resolves, rejects or never settles. *)
Theorem X20_one_request_in_a_lifetime (events : list Event) :
  webApiCalls (finalState (run events (finalState (init constructed))))
  = [("contact",
      "?$select=fullname,emailaddress1,contactid,jobtitle,address1_city")].
Proof.
  rewrite run_preserves_webApiCalls.
  unfold init, renderLayout, loadContacts, registerEventHandlers, consoleWarn.
  unfold_monad. destruct canvasContext; reflexivity.
Qed.

Lemma counted_records (records : list RelatedRecord.t) :
  forall (o : JSObject.t Count) (ks : list string),
    (forall r, In r records -> JSObject.inherited (statusKey r) = false) ->
    counted o ks ->
    counted (fold_left (fun grouped r => bump grouped (statusKey r)) records o)
            (ks ++ map statusKey records)%list.
Proof.
  induction records as [|r records IH]; intros o ks Hrs Hinv; simpl.
  - now rewrite app_nil_r.
  - change (statusKey r :: map statusKey records)
      with ([statusKey r] ++ map statusKey records)%list.
    rewrite app_assoc. apply IH.
    + intros r' H. apply Hrs. now right.
    + apply counted_bump; [apply Hrs; now left | exact Hinv].
Qed.

(** X21.  [updateChartByEntity] counts a record under its status and a
    record without a status under [Unknown].  As long as no status is the
    name of an [Object.prototype] member, the chart it draws has every
    status present as a label, once, and data that add up to the number of
    records. *)
Theorem X21_updateChartByEntity_counts_every_record
  (records : list RelatedRecord.t) (entityName : string) (s : State) :
  chartContext s = true ->
  (forall r, In r records -> JSObject.inherited (statusKey r) = false) ->
  exists s' cfg,
    updateChartByEntity records entityName s = Returned tt s' /\
    chart s' = Some (mkChart cfg false) /\
    cfgLabel cfg = entityName /\
    sumCounts (cfgData cfg) = Some (length records) /\
    NoDup (cfgLabels cfg) /\
    (forall k, In k (cfgLabels cfg) <->
               exists r, In r records /\
                 k = match RelatedRecord.status r with
                     | Some st => st
                     | None => "Unknown"
                     end).
Proof.
  intros Hctx Hrs.
  destruct (renderChart_returns (groupRecords records) entityName s)
    as [s' (Hrun & _ & _ & Hchart)].
  assert (Hinv : counted (groupRecords records) (map statusKey records)).
  { apply (counted_records records JSObject.empty [] Hrs).
    repeat split; simpl; try (intros H; exact H). constructor. }
  destruct Hinv as (Hnd & Hin & Hsum).
  pose proof (entries_perm (groupRecords records)) as Hp.
  exists s'. eexists.
  split; [unfold updateChartByEntity, bind, read; rewrite Hctx; exact Hrun|].
  split; [now apply Hchart|].
  cbn. unfold JSObject.keys, JSObject.values.
  split; [reflexivity|]. split; [|split].
  - rewrite (sumCounts_perm _ _ (Permutation_map snd Hp)), Hsum.
    now rewrite length_map.
  - apply (Permutation_NoDup (Permutation_sym (Permutation_map fst Hp))).
    exact Hnd.
  - intros k. split.
    + intros H. apply (Permutation_in _ (Permutation_map fst Hp)) in H.
      apply Hin in H. apply in_map_iff in H. destruct H as [r [<- Hr]].
      now exists r.
    + intros [r [Hr ->]].
      apply (Permutation_in _ (Permutation_sym (Permutation_map fst Hp))).
      apply Hin. apply in_map_iff. now exists r.
Qed.

Lemma seeded_counts (o : JSObject.t nat) (e : string) :
  In e relatedEntities ->
  JSObject.getOwn
    (fold_left (fun counts e => JSObject.set counts e 0) relatedEntities o) e
  = Some 0.
Proof.
  intros He. rewrite getOwn_fold_set.
  - replace (existsb (String.eqb e) relatedEntities) with true; [reflexivity|].
    symmetry. apply existsb_exists. exists e.
    split; [exact He | apply String.eqb_refl].
  - intros e' He'. now destruct (relatedEntities_facts e' He') as (_ & _ & _ & H).
Qed.

(** X22.  When the request resolves, [loadContacts] leaves a consistent
    view behind: the list shows exactly the stored contacts (or the text
    [No contacts found.] when none has an id), each of the seven related
    counts is zero, the detail panel and the grouping toggle are untouched,
    and with a canvas context the chart is the by-city chart of the stored
    contacts. *)
Theorem X22_loadContacts_success_view (s : State) (entities : list Entity.t) :
  exists s',
    loadContactsSettled (Resolved entities) s = Returned tt s' /\
    renderedContacts (contactList s') = contacts s' /\
    (contacts s' = [] <-> contactList s' = ListText "No contacts found.") /\
    (forall e, In e relatedEntities ->
               JSObject.getOwn (entityCounts s') e = Some 0) /\
    tabContent s' = tabContent s /\
    byCityActive s' = byCityActive s /\
    (chartContext s = true ->
     chart s' = Some (contactsChart (chartType s) City (contacts s'))).
Proof.
  destruct s as [ch ty ctx sel cs ec cl tc at_ bc bj el lg wc aw tm rc].
  unfold_methods. unfold_monad.
  generalize (filter hasId (map toContact entities)) as stored.
  intros stored.
  destruct ch as [c|]; [destruct (destroyError (config c)) eqn:E|];
    destruct ctx; destruct stored as [|c0 stored];
    cbn; rewrite ?E; cbn; eexists;
    (split; [reflexivity|]); cbn; rewrite ?rendered_cards;
    (split; [reflexivity|]);
    (split; [split; (reflexivity || discriminate)|]);
    (split; [intros e He; now apply seeded_counts|]);
    (split; [reflexivity|]); (split; [reflexivity|]);
    try discriminate; intros _; reflexivity.
Qed.

End Control.

(** ** The runtime model on small inputs *)

Example trim_example : trim "  John Smith " = "John Smith".
Proof. reflexivity. Qed.

Example toLowerCase_example : toLowerCase "Al-Amin 7" = "al-amin 7".
Proof. reflexivity. Qed.

Example includes_example :
  includes "alice" "lic" = true /\
  includes "alice" EmptyString = true /\
  includes "al" "alice" = false.
Proof. repeat split. Qed.

Example escapeHtml_example :
  escapeHtml "<b title='T&C'>" = "&lt;b title=&#039;T&amp;C&#039;&gt;".
Proof. reflexivity. Qed.

(** The detail panel for [alice], as [showContactDetails] writes it. *)
Example detailsHtml_example :
  detailsHtml alice = "
      <h4>Alice &lt;A&amp;B&gt;</h4>
      <p><strong>Email:</strong> alice@example.com</p>
      <p><strong>City:</strong> NY</p>
      <p><strong>Job Title:</strong> Engineer</p>
    ".
Proof. reflexivity. Qed.

(** Array-index keys come first and in numeric order, the other keys in
    creation order. *)
Example keys_order_example :
  JSObject.keys
    (fold_left bump ["Oslo"; "10"; "9"; "007"; "Oslo"] JSObject.empty)
  = ["9"; "10"; "Oslo"; "007"].
Proof. reflexivity. Qed.

Example mockRecord_example :
  mockRecord "orders" 1
  = RelatedRecord.mk "orders-2" "Orders Record 2" "orders" (Some "Closed").
Proof. reflexivity. Qed.

Example cardOf_example :
  cardText (cardOf al) = "Al - al@example.com - LA".
Proof. reflexivity. Qed.

(** ** The sample states are states of the control *)

Lemma loaded_reachable :
  run quietDestroy alwaysTwo [ContactsSettled (Resolved sampleEntities)]
      (finalState (init true constructed))
  = Returned tt loaded.
Proof. reflexivity. Qed.

Lemma loadedWithoutCanvas_reachable :
  run quietDestroy alwaysTwo [ContactsSettled (Resolved sampleEntities)]
      (finalState (init false constructed))
  = Returned tt loadedWithoutCanvas.
Proof. reflexivity. Qed.

Lemma ordersPending_reachable :
  run quietDestroy alwaysTwo [CardClick 0; TabClick (Some "orders")] loaded
  = Returned tt ordersPending.
Proof. reflexivity. Qed.

(** With the By Job toggle active, selecting a contact puts the by-city
    chart back on the canvas while the toggle still says By Job. *)
Example selection_resets_grouping :
  let s := finalState (run quietDestroy alwaysTwo [ByJobClick] loaded) in
  let s' := finalState (run quietDestroy alwaysTwo [CardClick 1] s) in
  chart s = Some (contactsChart "bar" Job [alice; al]) /\
  chart s' = Some (contactsChart "bar" City [alice; al]) /\
  byJobActive s' = true /\
  byCityActive s' = false.
Proof. cbv zeta. repeat split; vm_compute; reflexivity. Qed.

(** ** Instances of the claims *)


Lemma C4_onContactSelect_witness :
  ("a"%char <> "&"%char /\ "a"%char <> "<"%char /\ "a"%char <> ">"%char /\
   "a"%char <> "034"%char /\ "a"%char <> "039"%char) /\
  entityOf "a" = "a" /\
  tabContent (finalState (onContactSelect quietDestroy alwaysTwo alice loaded))
  = Markup "
      <h4>Alice &lt;A&amp;B&gt;</h4>
      <p><strong>Email:</strong> alice@example.com</p>
      <p><strong>City:</strong> NY</p>
      <p><strong>Job Title:</strong> Engineer</p>
    ".
Proof.
  destruct (C4_onContactSelect quietDestroy alwaysTwo loaded alice)
    as ([s' (Hrun & _ & _ & Hpanel)] & _ & _ & Hplain & _).
  split; [repeat split; discriminate|].
  split; [apply Hplain; discriminate|].
  rewrite Hrun. cbn [finalState]. rewrite Hpanel. reflexivity.
Defined.

Lemma C5_getColors_cyclic_witness :
  (8 < 10 /\ 3 < 10) /\
  length (getColors 10) = 10 /\
  nth_error (getColors 10) 3 = nth_error palette (3 mod 8) /\
  nth_error (getColors 10) 8 = nth_error (getColors 10) 0 /\
  nth_error (getColors 10) 8 = Some "#2563eb".
Proof.
  destruct (C5_getColors_cyclic 10) as (Hlen & _ & _ & Hnth & Hwrap).
  split; [split; lia|].
  split; [exact Hlen|].
  split; [apply Hnth; lia|].
  apply Hwrap; lia.
Defined.

Lemma C3_switchTab_without_selection_witness :
  In "orders" tabNames /\
  "orders" <> "contact" /\
  selectedContactId loaded = None /\
  switchTab quietDestroy alwaysTwo "orders" loaded
    = Returned tt
        (set_tabContent (Text "Select a contact first.")
           (set_activeTab (Some "orders") loaded)).
Proof.
  assert (Hin : In "orders" tabNames) by (simpl; tauto).
  assert (Hne : "orders" <> "contact") by discriminate.
  split; [exact Hin | split; [exact Hne | split; [reflexivity|]]].
  exact (proj1 (C3_switchTab_without_selection quietDestroy alwaysTwo
                  loaded "orders" Hin Hne eq_refl)).
Defined.

Lemma C8_pending_fetch_outlives_destroy_witness :
  timers ordersPending = [(map (mockRecord "orders") (seq 0 3), "orders")] /\
  exists s1 s2,
    step quietDestroy alwaysTwo Destroy ordersPending = Returned tt s1 /\
    step quietDestroy alwaysTwo DelayElapsed s1 = Returned tt s2 /\
    tabContent s2
      = relatedMarkup (map (mockRecord "orders") (seq 0 3)) "orders".
Proof.
  split; [reflexivity|].
  destruct (C8_pending_fetch_outlives_destroy quietDestroy alwaysTwo
              ordersPending (map (mockRecord "orders") (seq 0 3), "orders")
              [] eq_refl)
    as [s1 [s2 (Hd & He & _ & Htab & _)]].
  exists s1, s2. repeat split; assumption.
Defined.

Lemma C9_contacts_kept_through_destroy_witness :
  awaitingContacts loaded = false /\
  contacts (finalState
              (run quietDestroy alwaysTwo
                   [CardClick 1; TabClick (Some "leads"); Destroy; DelayElapsed]
                   loaded))
  = [alice; al].
Proof.
  split; [reflexivity|].
  exact (proj2 (C9_contacts_kept_through_destroy quietDestroy alwaysTwo loaded)
               [CardClick 1; TabClick (Some "leads"); Destroy; DelayElapsed]
               eq_refl).
Defined.

Lemma C10_details_redraw_by_city_witness :
  find (isSelected (selectedContactId ordersPending)) (contacts ordersPending)
    = Some alice /\
  exists s',
    switchTab quietDestroy alwaysTwo "contact" ordersPending = Returned tt s' /\
    chart s' = Some (contactsChart "bar" City [alice; al]).
Proof.
  split; [reflexivity|].
  destruct (proj2 (proj2 (C10_details_redraw_by_city quietDestroy alwaysTwo
                            ordersPending alice)) eq_refl)
    as [s' (Hrun & _ & Hchart & _)].
  exists s'. split; assumption.
Defined.

(** ** Where the code departs from the specification *)

(** C1.  The grouping of the failing input is not the one specified. *)
Lemma C1_grouping_not_as_specified :
  ~ groupingAsSpecified City [eve] (groupContacts City [eve]) /\
  ~ groupingAsSpecified Job [eve] (groupContacts Job [eve]).
Proof.
  split; intros [Hsum _]; discriminate Hsum.
Qed.


(** C8.  The records of the Orders tab are rendered after [destroy]. *)
Lemma C8_counterexample_render_after_destroy :
  ~ pendingWorkIsInert quietDestroy alwaysTwo ordersPending.
Proof.
  intros H.
  set (s1 := finalState (step quietDestroy alwaysTwo Destroy ordersPending)).
  destruct (H s1 eq_refl) as [s2 [Hstep [Htab _]]].
  destruct (delayElapsed_renders quietDestroy alwaysTwo s1
              (map (mockRecord "orders") (seq 0 3), "orders") [] eq_refl)
    as [s2' (Hstep' & _ & Htab' & _)].
  rewrite Hstep in Hstep'. injection Hstep' as <-.
  rewrite Htab' in Htab.
  change (tabContent s1) with (Text "Loading related records...") in Htab.
  unfold relatedMarkup in Htab. discriminate Htab.
Qed.

(** C9.  After [destroy] the control still holds [alice] and [al]. *)
Lemma C9_counterexample_contacts_after_destroy :
  ~ contactsDiscardedOnDestroy quietDestroy loaded.
Proof.
  intros H.
  specialize (H (finalState (destroy quietDestroy loaded)) eq_refl).
  change (contacts (finalState (destroy quietDestroy loaded)))
    with [alice; al] in H.
  discriminate H.
Qed.

(** C10.  Without a canvas context the details are rendered and no chart
    is drawn. *)
Lemma C10_counterexample_no_canvas :
  ~ detailsRedrawByCity quietDestroy alice loadedWithoutCanvas.
Proof.
  intros [s' [Hrun Hchart]].
  destruct (showContactDetails_redraws quietDestroy loadedWithoutCanvas alice)
    as [s'' (Hrun' & _ & Hchart')].
  rewrite Hrun in Hrun'. injection Hrun' as <-.
  rewrite Hchart' in Hchart. discriminate Hchart.
Qed.

(** ** Instances of the further properties *)

Lemma aliceSelected_reachable :
  run quietDestroy alwaysTwo [CardClick 0] loaded = Returned tt aliceSelected.
Proof. reflexivity. Qed.

Lemma twoPending_reachable :
  run quietDestroy alwaysTwo
      [TabClick (Some "orders"); TabClick (Some "leads")] aliceSelected
  = Returned tt twoPending.
Proof. reflexivity. Qed.

Lemma loaded_ordinary_cities (c : Contact.t) :
  In c (contacts loaded) -> JSObject.inherited (groupKey City c) = false.
Proof. intros [<-|[<-|[]]]; reflexivity. Qed.

Lemma aliceSelected_wellFormed : wellFormed aliceSelected.
Proof.
  unfold wellFormed. cbn. repeat split.
  - intros c [<-|[<-|[]]]; reflexivity.
  - tauto.
  - intros v Hv. injection Hv as <-. now left.
  - discriminate.
Qed.

Lemma X1_updateChart_counts_every_contact_witness :
  chartContext loaded = true /\
  exists s' cfg,
    updateChart quietDestroy City loaded = Returned tt s' /\
    chart s' = Some (mkChart cfg false) /\
    sumCounts (cfgData cfg) = Some 2.
Proof.
  split; [reflexivity|].
  destruct (X1_updateChart_counts_every_contact quietDestroy City loaded
              eq_refl loaded_ordinary_cities)
    as [s' [cfg (Hrun & Hchart & _ & Hsum & _)]].
  exists s', cfg. repeat split; assumption.
Defined.

Lemma X2_renderChart_teardown_witness :
  (chartContext aliceSelected = true /\
   forall ch, chart aliceSelected = Some ch -> quietDestroy (config ch) = None) /\
  (exists s' cfg,
     renderChart quietDestroy (groupContacts Job [alice; al]) "Contacts"
                 aliceSelected
       = Returned tt s' /\
     chart s' = Some (mkChart cfg false) /\
     combine (cfgLabels cfg) (cfgData cfg)
     = [("Engineer", Num 1); ("Manager", Num 1)] /\
     console s' = []) /\
  (chart aliceSelected = Some (contactsChart "bar" City [alice; al]) /\
   (fun _ : ChartConfiguration => Some "teardown failed")
     (config (contactsChart "bar" City [alice; al]))
   = Some "teardown failed") /\
  console (finalState
             (renderChart (fun _ => Some "teardown failed")
                          (groupContacts Job [alice; al]) "Contacts"
                          aliceSelected))
  = [ConsoleWarn "Error destroying previous chart:" (Some "teardown failed")].
Proof.
  assert (Hquiet : forall ch, chart aliceSelected = Some ch ->
                              quietDestroy (config ch) = None)
    by (intros ch _; reflexivity).
  split; [split; [reflexivity | exact Hquiet]|].
  split.
  - destruct (proj1 (X2_renderChart_teardown quietDestroy
                       (groupContacts Job [alice; al]) "Contacts"
                       aliceSelected eq_refl) Hquiet)
      as [s' [cfg (Hrun & Hchart & _ & _ & Hpairs & _ & _ & Hlog)]].
    exists s', cfg. split; [exact Hrun|]. split; [exact Hchart|].
    split; [exact Hpairs | exact Hlog].
  - split; [split; reflexivity|].
    exact (proj2 (X2_renderChart_teardown (fun _ => Some "teardown failed")
                    (groupContacts Job [alice; al]) "Contacts"
                    aliceSelected eq_refl)
             (contactsChart "bar" City [alice; al]) "teardown failed"
             eq_refl eq_refl).
Defined.

Lemma X3_getColors_distinct_up_to_eight_witness :
  3 <= 8 /\ NoDup (getColors 3) /\ 8 < 9 /\ ~ NoDup (getColors 9).
Proof.
  assert (H3 : 3 <= 8) by repeat constructor.
  assert (H9 : 8 < 9) by repeat constructor.
  split; [exact H3|].
  split; [exact (proj2 (proj1 (proj2 (X3_getColors_distinct_up_to_eight 3))
                          H3))|].
  split; [exact H9|].
  exact (proj1 (proj2 (proj2 (X3_getColors_distinct_up_to_eight 9))) H9).
Defined.

Lemma X7_search_edge_cases_witness :
  (isAscii "   " = true /\
   forallb (fun c => isAscii (Contact.name c)) (contacts loaded) = true /\
   trim "   " = EmptyString) /\
  exists s',
    onSearchInput "   " loaded = Returned tt s' /\
    renderedContacts (contactList s') = [alice; al].
Proof.
  split; [repeat split|].
  destruct (X7_search_edge_cases loaded "   " eq_refl eq_refl)
    as [s' (Hrun & _ & Hall)].
  exists s'. split; [exact Hrun | exact (Hall eq_refl)].
Defined.

Lemma X8_calculateEntityCounts_zeroes_the_seven_witness :
  entityCounts constructed = JSObject.empty /\
  In "orders" relatedEntities /\
  exists s',
    calculateEntityCounts constructed = Returned tt s' /\
    JSObject.getOwn (entityCounts s') "orders" = Some 0 /\
    length (entityCountsList s') = 7.
Proof.
  assert (Hin : In "orders" relatedEntities) by (simpl; tauto).
  split; [reflexivity|]. split; [exact Hin|].
  destruct (X8_calculateEntityCounts_zeroes_the_seven constructed)
    as [s' (Hrun & Hzero & _ & _ & Hlist)].
  exists s'. split; [exact Hrun|]. split; [exact (Hzero "orders" Hin)|].
  now rewrite (Hlist eq_refl).
Defined.

Lemma X9_related_tab_load_cycle_witness :
  In "orders" relatedEntities /\
  noSelection (selectedContactId aliceSelected) = false /\
  timers aliceSelected = [] /\
  exists s1 s2,
    step quietDestroy alwaysTwo (TabClick (Some "orders")) aliceSelected
      = Returned tt s1 /\
    step quietDestroy alwaysTwo DelayElapsed s1 = Returned tt s2 /\
    JSObject.getOwn (entityCounts s2) "orders" = Some 3 /\
    chart s2 = Some (chartOf "bar" (mockGrouping 3) "orders").
Proof.
  assert (Hin : In "orders" relatedEntities) by (simpl; tauto).
  split; [exact Hin|]. split; [reflexivity|]. split; [reflexivity|].
  destruct (X9_related_tab_load_cycle quietDestroy alwaysTwo aliceSelected
              "orders" Hin eq_refl eq_refl)
    as [s1 [s2 (Hclick & _ & _ & _ & Hstep & _ & _ & Hcount & _ & Hchart)]].
  exists s1, s2. split; [exact Hclick|]. split; [exact Hstep|].
  split; [exact Hcount | exact (Hchart eq_refl)].
Defined.

Lemma X10_mock_records_grouping_witness :
  1 < 3 /\
  groupRecords (map (mockRecord "leads") (seq 0 3))
    = [("Active", Num 2); ("Closed", Num 1)] /\
  nth_error (map (mockRecord "leads") (seq 0 3)) 1
    = Some (RelatedRecord.mk "leads-2" "Leads Record 2" "leads"
              (Some "Closed")).
Proof.
  assert (H : 1 < 3) by repeat constructor.
  split; [exact H|].
  split; [exact (proj1 (X10_mock_records_grouping "leads" 3))|].
  exact (proj2 (proj2 (X10_mock_records_grouping "leads" 3)) 1 H).
Defined.

Lemma X11_one_grouping_toggle_active_witness :
  oneToggleActive loaded /\
  oneToggleActive
    (finalState
       (run quietDestroy alwaysTwo
            [ByJobClick; CardClick 0; ChartTypeChange "pie"; ByCityClick]
            loaded)).
Proof.
  split; [reflexivity|].
  exact (proj2 (proj2 (proj2
           (X11_one_grouping_toggle_active quietDestroy alwaysTwo true loaded
              [ByJobClick; CardClick 0; ChartTypeChange "pie"; ByCityClick])))
           eq_refl).
Defined.

Lemma X12_no_canvas_no_chart_witness :
  chartContext loadedWithoutCanvas = false /\
  chart loadedWithoutCanvas = None /\
  chart (finalState
           (run quietDestroy alwaysTwo
                [ByJobClick; CardClick 1; TabClick (Some "quotes");
                 DelayElapsed; ChartTypeChange "radar"]
                loadedWithoutCanvas))
  = None.
Proof.
  split; [reflexivity|]. split; [reflexivity|].
  exact (proj2 (X12_no_canvas_no_chart quietDestroy alwaysTwo
                  loadedWithoutCanvas
                  [ByJobClick; CardClick 1; TabClick (Some "quotes");
                   DelayElapsed; ChartTypeChange "radar"])
               eq_refl eq_refl).
Defined.

Lemma X14_selected_contact_is_found_witness :
  wellFormed aliceSelected /\
  selectedContactId aliceSelected = Some "c-1" /\
  exists c s',
    In c (contacts aliceSelected) /\ Contact.id c = "c-1" /\
    switchTab quietDestroy alwaysTwo "contact" aliceSelected
      = Returned tt s' /\
    tabContent s' = Markup (detailsHtml c).
Proof.
  split; [exact aliceSelected_wellFormed|]. split; [reflexivity|].
  destruct (proj1 (X14_selected_contact_is_found quietDestroy alwaysTwo
                     aliceSelected "c-1" aliceSelected_wellFormed eq_refl))
    as [c [s' (Hin & Hid & Hrun & _ & Htab)]].
  exists c, s'. repeat split; assumption.
Defined.

Lemma X15_chart_type_change_follows_toggle_witness :
  chartContext loaded = true /\
  exists s',
    step quietDestroy alwaysTwo (ChartTypeChange "doughnut") loaded
      = Returned tt s' /\
    chart s' = Some (contactsChart "doughnut" City [alice; al]).
Proof.
  split; [reflexivity|].
  destruct (X15_chart_type_change_follows_toggle quietDestroy alwaysTwo
              loaded "doughnut" eq_refl) as [s' (Hrun & _ & Hchart & _)].
  exists s'. split; [exact Hrun | exact Hchart].
Defined.

Lemma X16_last_started_load_wins_witness :
  timers twoPending
    = [ (map (mockRecord "orders") (seq 0 3), "orders");
        (map (mockRecord "leads") (seq 0 3), "leads") ] /\
  exists s1 s2,
    step quietDestroy alwaysTwo DelayElapsed twoPending = Returned tt s1 /\
    step quietDestroy alwaysTwo DelayElapsed s1 = Returned tt s2 /\
    tabContent s2 = relatedMarkup (map (mockRecord "leads") (seq 0 3)) "leads".
Proof.
  split; [reflexivity|].
  destruct (X16_last_started_load_wins quietDestroy alwaysTwo twoPending
              (map (mockRecord "orders") (seq 0 3), "orders")
              (map (mockRecord "leads") (seq 0 3), "leads") [] eq_refl)
    as [s1 [s2 (H1 & _ & H2 & Htab & _)]].
  exists s1, s2. repeat split; assumption.
Defined.

Lemma X17_contact_tab_without_selection_witness :
  selectedContactId loaded = None /\
  step quietDestroy alwaysTwo (TabClick None) loaded
    = Returned tt (set_activeTab (Some "contact") loaded).
Proof.
  split; [reflexivity|].
  exact (proj1 (proj2 (proj2
           (X17_contact_tab_without_selection quietDestroy alwaysTwo loaded
              eq_refl)))).
Defined.

Lemma sampleRecords_ordinary (r : RelatedRecord.t) :
  In r sampleRecords -> JSObject.inherited (statusKey r) = false.
Proof. intros [<-|[<-|[]]]; reflexivity. Qed.

Lemma X21_updateChartByEntity_counts_every_record_witness :
  chartContext loaded = true /\
  exists s' cfg,
    updateChartByEntity quietDestroy sampleRecords "quotes" loaded
      = Returned tt s' /\
    chart s' = Some (mkChart cfg false) /\
    sumCounts (cfgData cfg) = Some 2 /\
    In "Unknown" (cfgLabels cfg).
Proof.
  split; [reflexivity|].
  destruct (X21_updateChartByEntity_counts_every_record quietDestroy
              sampleRecords "quotes" loaded eq_refl sampleRecords_ordinary)
    as [s' [cfg (Hrun & Hchart & _ & Hsum & _ & Hlabels)]].
  exists s', cfg. split; [exact Hrun|]. split; [exact Hchart|].
  split; [exact Hsum|]. apply Hlabels.
  exists (RelatedRecord.mk "quotes-2" "Quotes Record 2" "quotes" None).
  split; [right; now left | reflexivity].
Defined.

Lemma X22_loadContacts_success_view_witness :
  chartContext (finalState (init true constructed)) = true /\
  In "leads" relatedEntities /\
  exists s',
    loadContactsSettled quietDestroy (Resolved sampleEntities)
                        (finalState (init true constructed))
      = Returned tt s' /\
    JSObject.getOwn (entityCounts s') "leads" = Some 0 /\
    chart s' = Some (contactsChart "bar" City (contacts s')).
Proof.
  assert (Hin : In "leads" relatedEntities) by (simpl; tauto).
  split; [reflexivity|]. split; [exact Hin|].
  destruct (X22_loadContacts_success_view quietDestroy
              (finalState (init true constructed)) sampleEntities)
    as [s' (Hrun & _ & _ & Hzero & _ & _ & Hchart)].
  exists s'. split; [exact Hrun|].
  split; [exact (Hzero "leads" Hin) | exact (Hchart eq_refl)].
Defined.
